(** * async_upnp_client.server: SSDP responder, announcer and SOAP dispatcher

    A shallow embedding of [src/async_upnp_client/server.py].  Python text is
    modelled by [string] (SSDP and SOAP header text is ASCII), Python [int] by
    [Z], lists by [list], insertion-ordered dictionaries by association lists
    in insertion order, and the objects handed to collaborators that are not
    part of this file (the datagram transport, the HTTP framework) by the
    values they receive. *)

From Stdlib Require Import String Ascii ZArith Lia Bool Arith PeanoNat List.
From Stdlib Require Import Permutation.
Import ListNotations.
Set Warnings "-register-all".
Open Scope string_scope.
Open Scope list_scope.

(** ** Text helpers *)

Module Text.

(** The double-quote character. *)
Definition dquote : ascii := ascii_of_nat 34.

(** [str.lower] on one ASCII character. *)
Definition lower_ascii (c : ascii) : ascii :=
  let n := nat_of_ascii c in
  if (65 <=? n)%nat && (n <=? 90)%nat then ascii_of_nat (n + 32) else c.

(** [str.lower]. *)
Fixpoint lower (s : string) : string :=
  match s with
  | EmptyString => EmptyString
  | String c r => String (lower_ascii c) (lower r)
  end.

(** [str.strip(chars)] for a single character [ch]: leading part. *)
Fixpoint lstrip (ch : ascii) (s : string) : string :=
  match s with
  | String c r => if Ascii.eqb c ch then lstrip ch r else s
  | EmptyString => EmptyString
  end.

Fixpoint rev_string (s : string) : string :=
  match s with
  | EmptyString => EmptyString
  | String c r => (rev_string r ++ String c EmptyString)%string
  end.

Definition rstrip (ch : ascii) (s : string) : string :=
  rev_string (lstrip ch (rev_string s)).

Definition strip (ch : ascii) (s : string) : string :=
  rstrip ch (lstrip ch s).

(** [str.split(sep)] for a single-character separator: the fields between
    the occurrences of [sep], at least one field. *)
Fixpoint split (sep : ascii) (s : string) : list string :=
  match s with
  | EmptyString => [EmptyString]
  | String c r =>
      if Ascii.eqb c sep then EmptyString :: split sep r
      else match split sep r with
           | f :: fs => String c f :: fs
           | [] => [String c EmptyString]
           end
  end.

(** Does [ch] occur in [s]? *)
Fixpoint contains (ch : ascii) (s : string) : bool :=
  match s with
  | EmptyString => false
  | String c r => Ascii.eqb c ch || contains ch r
  end.

(** [str(n)] for a Python [int]. *)
Fixpoint digits (fuel : nat) (n : Z) (acc : string) : string :=
  match fuel with
  | O => acc
  | S f =>
      let d := ascii_of_nat (48 + Z.to_nat (n mod 10)) in
      if (n <? 10)%Z then String d acc
      else digits f (n / 10)%Z (String d acc)
  end.

Definition str_of_int (n : Z) : string :=
  if (n <? 0)%Z then String "-" (digits (S (Z.to_nat (Z.log2 (- n)))) (- n) EmptyString)
  else digits (S (Z.to_nat (Z.log2 n))) n EmptyString.

End Text.

(** ** Device and service model *)

(** Modelled from the spec: [UpnpService] (client module, not part of the
    server file).  Only the attributes the server reads are kept;
    [device_udn] is the [udn] of the owning device, reached in the source
    through the back-reference [service.device]. *)
Record UpnpService := mkService {
  service_type : string;
  service_id : string;
  device_udn : string
}.

(** Modelled from the spec: [UpnpDevice] (client module).  The two
    insertion-ordered mappings are kept as the lists of their values. *)
Inductive UpnpDevice := mkDevice {
  udn : string;
  device_type : string;
  base_uri : string;
  device_url : string;
  services : list UpnpService;
  embedded_devices : list UpnpDevice
}.

(** Modelled from the spec: [all_devices] is the device itself followed by
    all embedded devices, depth first in insertion order. *)
Fixpoint all_devices (d : UpnpDevice) : list UpnpDevice :=
  d :: flat_map all_devices (embedded_devices d).

(** Modelled from the spec: [all_services] lists the services of each device
    of [all_devices], in that order. *)
Definition all_services (d : UpnpDevice) : list UpnpService :=
  flat_map services (all_devices d).

(** ** SSDP data *)

(** [AddressTupleVXType]: a two-tuple (IPv4) or four-tuple (IPv6). *)
Inductive AddressTupleVXType :=
| AddrV4 (host : string) (port : Z)
| AddrV6 (host : string) (port flowinfo scope_id : Z).

(** A header value of an inbound packet: text, or the peer address stored
    under the synthetic name [_remote_addr]. *)
Inductive HeaderValue :=
| HStr (s : string)
| HAddr (a : AddressTupleVXType).

(** Modelled from the spec: [CaseInsensitiveDict] (utils module), a header
    container in insertion order whose names are matched
    case-insensitively. *)
Definition CaseInsensitiveDict := list (string * HeaderValue).

Module Headers.

(** [headers.get(key)]: [None] when no name matches. *)
Fixpoint get (h : CaseInsensitiveDict) (key : string) : option HeaderValue :=
  match h with
  | [] => None
  | (k, v) :: r =>
      if String.eqb (Text.lower k) (Text.lower key) then Some v else get r key
  end.

(** [CaseInsensitiveDict(base, **kwargs)]: the entries of [base], then the
    keyword entries. *)
Definition extend (base extra : list (string * string)) : CaseInsensitiveDict :=
  map (fun kv => (fst kv, HStr (snd kv))) (base ++ extra).

End Headers.

(** Modelled from the spec: the constants of the ssdp module. *)
Definition SSDP_DISCOVER : string :=
  String Text.dquote ("ssdp:discover" ++ String Text.dquote "")%string.
Definition SSDP_ST_ALL : string := "ssdp:all".
Definition SSDP_ST_ROOTDEVICE : string := "upnp:rootdevice".

(** A packet as handed to [build_ssdp_packet]: start line and headers in
    order.  The byte rendering belongs to the ssdp module. *)
Record SsdpPacket := mkPacket {
  start_line : string;
  packet_headers : list (string * string)
}.

Definition build_ssdp_packet (line : string) (headers : list (string * string)) : SsdpPacket :=
  mkPacket line headers.

Fixpoint assoc (l : list (string * string)) (name : string) : option string :=
  match l with
  | [] => None
  | (k, v) :: r => if String.eqb k name then Some v else assoc r name
  end.

(** [packet_header p name]: the value stored under exactly [name]. *)
Definition packet_header (p : SsdpPacket) (name : string) : option string :=
  assoc (packet_headers p) name.

(** A datagram given to the transport: the packet and its destination. *)
Definition Datagram := (SsdpPacket * HeaderValue)%type.

(** Exceptions raised by the SSDP side. *)
Inductive SsdpExc :=
| KeyError (key : string)
| AttributeError (attr : string)
| IndexError
| AssertionError.

(** ** The search responder *)

(** [SsdpSearchResponder]: the root device and the transport, which is
    [None] until [_async_on_connect] ran.  A transport is modelled by the
    datagrams handed to it so far, oldest first. *)
Record SsdpSearchResponder := mkResponder {
  device : UpnpDevice;
  _transport : option (list Datagram)
}.

(** Computations of the responder: they read and update [self] and either
    return a value or raise. *)
Definition M (A : Type) : Type :=
  SsdpSearchResponder -> (SsdpExc + A) * SsdpSearchResponder.

Definition ret {A} (a : A) : M A := fun self => (inr a, self).

Definition raise {A} (e : SsdpExc) : M A := fun self => (inl e, self).

Definition bind {A B} (m : M A) (k : A -> M B) : M B :=
  fun self =>
    match m self with
    | (inl e, self') => (inl e, self')
    | (inr a, self') => k a self'
    end.

Definition get_self : M SsdpSearchResponder := fun self => (inr self, self).

Declare Scope py_scope.
Delimit Scope py_scope with py.
Notation "x <- c1 ;; c2" := (bind c1 (fun x => c2))
  (at level 61, c1 at next level, right associativity) : py_scope.
Notation "c1 ;;; c2" := (bind c1 (fun _ => c2))
  (at level 61, right associativity) : py_scope.
Open Scope py_scope.

(** [for x in xs: body(x)]. *)
Fixpoint for_each {X} (xs : list X) (body : X -> M unit) : M unit :=
  match xs with
  | [] => ret tt
  | x :: r => body x ;;; for_each r body
  end.

(** [assert self._transport]. *)
Definition assert_transport : M unit :=
  self <- get_self ;;
  match _transport self with
  | Some _ => ret tt
  | None => raise AssertionError
  end.

(** [protocol.send_ssdp_packet(packet, addr)]: the datagram is handed to the
    transport. *)
Definition send_ssdp_packet (packet : SsdpPacket) (addr : HeaderValue) : M unit :=
  fun self =>
    match _transport self with
    | Some sent => (inr tt, mkResponder (device self) (Some (sent ++ [(packet, addr)])))
    | None => (inl AssertionError, self)
    end.

(** [headers[key]]: raises [KeyError] when no name matches. *)
Definition getitem (headers : CaseInsensitiveDict) (key : string) : M HeaderValue :=
  match Headers.get headers key with
  | Some v => ret v
  | None => raise (KeyError key)
  end.

(** [value.lower()]: only text has the method. *)
Definition value_lower (v : HeaderValue) : M string :=
  match v with
  | HStr s => ret (Text.lower s)
  | HAddr _ => raise (AttributeError "lower")
  end.

(** [headers.get("MAN") != SSDP_DISCOVER]. *)
Definition man_differs (headers : CaseInsensitiveDict) : bool :=
  match Headers.get headers "MAN" with
  | Some (HStr s) => negb (String.eqb s SSDP_DISCOVER)
  | _ => true
  end.

Definition _async_send_response
    (remote_addr : HeaderValue) (service_type unique_service_name : string) : M unit :=
  assert_transport ;;;
  self <- get_self ;;
  let response_headers :=
    [ ("CACHE-CONTROL", "max-age=150");
      ("SERVER", "async-upnp-client/1.0 UPnP/1.0 DummyServer/1.0");
      ("ST", service_type);
      ("USN", unique_service_name);
      ("EXT", "");
      ("LOCATION", (base_uri (device self) ++ device_url (device self))%string) ] in
  let response_line := "HTTP/1.1 200 OK" in
  let packet := build_ssdp_packet response_line response_headers in
  send_ssdp_packet packet remote_addr.

Definition _async_send_response_rootdevice (remote_addr : HeaderValue) : M unit :=
  self <- get_self ;;
  _async_send_response remote_addr "upnp:rootdevice"
    (udn (device self) ++ "::upnp:rootdevice")%string.

Definition _async_send_responses_device_udn
    (remote_addr : HeaderValue) (dev : UpnpDevice) : M unit :=
  self <- get_self ;;
  _async_send_response remote_addr (udn dev) (udn (device self)).

Definition _async_send_responses_device_type
    (remote_addr : HeaderValue) (dev : UpnpDevice) : M unit :=
  self <- get_self ;;
  _async_send_response remote_addr (device_type dev)
    (udn (device self) ++ "::" ++ device_type dev)%string.

Definition _async_send_responses_service
    (remote_addr : HeaderValue) (service : UpnpService) : M unit :=
  self <- get_self ;;
  _async_send_response remote_addr (service_type service)
    (udn (device self) ++ "::" ++ service_type service)%string.

Definition _matched_devices_by_uuid
    (self : SsdpSearchResponder) (search_target : string) : list UpnpDevice :=
  filter (fun dev => String.eqb (Text.lower (udn dev)) search_target)
         (all_devices (device self)).

Definition _matched_devices_by_type
    (self : SsdpSearchResponder) (search_target : string) : list UpnpDevice :=
  filter (fun dev => String.eqb (Text.lower (device_type dev)) search_target)
         (all_devices (device self)).

Definition _matched_services_by_type
    (self : SsdpSearchResponder) (search_target : string) : list UpnpService :=
  filter (fun service => String.eqb (Text.lower (service_type service)) search_target)
         (all_services (device self)).

(** Truth value of a list: non-empty. *)
Definition truthy {X} (l : list X) : bool :=
  match l with [] => false | _ :: _ => true end.

Definition _async_on_data (request_line : string) (headers : CaseInsensitiveDict) : M unit :=
  assert_transport ;;;
  if negb (String.eqb request_line "M-SEARCH * HTTP/1.1") || man_differs headers
  then ret tt
  else
    remote_addr <- getitem headers "_remote_addr" ;;
    st <- getitem headers "st" ;;
    search_target <- value_lower st ;;
    self <- get_self ;;
    if String.eqb search_target SSDP_ST_ALL then
      _async_send_response_rootdevice remote_addr ;;;
      for_each (all_devices (device self))
               (_async_send_responses_device_udn remote_addr) ;;;
      for_each (all_devices (device self))
               (_async_send_responses_device_type remote_addr) ;;;
      for_each (all_services (device self))
               (_async_send_responses_service remote_addr)
    else if String.eqb search_target SSDP_ST_ROOTDEVICE then
      _async_send_response_rootdevice remote_addr
    else if truthy (_matched_devices_by_uuid self search_target) then
      for_each (_matched_devices_by_uuid self search_target)
               (_async_send_responses_device_udn remote_addr)
    else if truthy (_matched_devices_by_type self search_target) then
      for_each (_matched_devices_by_type self search_target)
               (_async_send_responses_device_type remote_addr)
    else if truthy (_matched_services_by_type self search_target) then
      for_each (_matched_services_by_type self search_target)
               (_async_send_responses_service remote_addr)
    else ret tt.

(** ** What the responder hands to the transport *)

(** The packet built by [_async_send_response] for a root device [root]. *)
Definition search_response (root : UpnpDevice) (st usn : string) : SsdpPacket :=
  build_ssdp_packet "HTTP/1.1 200 OK"
    [ ("CACHE-CONTROL", "max-age=150");
      ("SERVER", "async-upnp-client/1.0 UPnP/1.0 DummyServer/1.0");
      ("ST", st);
      ("USN", usn);
      ("EXT", "");
      ("LOCATION", (base_uri root ++ device_url root)%string) ].

Definition rootdevice_response (root : UpnpDevice) : SsdpPacket :=
  search_response root "upnp:rootdevice" (udn root ++ "::upnp:rootdevice")%string.

Definition device_udn_response (root dev : UpnpDevice) : SsdpPacket :=
  search_response root (udn dev) (udn root).

Definition device_type_response (root dev : UpnpDevice) : SsdpPacket :=
  search_response root (device_type dev) (udn root ++ "::" ++ device_type dev)%string.

Definition service_response (root : UpnpDevice) (service : UpnpService) : SsdpPacket :=
  search_response root (service_type service)
    (udn root ++ "::" ++ service_type service)%string.

(** A responder for [root] before [_async_on_connect]. *)
Definition unconnected (root : UpnpDevice) : SsdpSearchResponder :=
  mkResponder root None.

(** The packets sent for a lower-cased search target, in sending order. *)
Definition responses_for (root : UpnpDevice) (search_target : string) : list SsdpPacket :=
  let self := unconnected root in
  if String.eqb search_target SSDP_ST_ALL then
    rootdevice_response root
      :: map (device_udn_response root) (all_devices root)
      ++ map (device_type_response root) (all_devices root)
      ++ map (service_response root) (all_services root)
  else if String.eqb search_target SSDP_ST_ROOTDEVICE then
    [rootdevice_response root]
  else if truthy (_matched_devices_by_uuid self search_target) then
    map (device_udn_response root) (_matched_devices_by_uuid self search_target)
  else if truthy (_matched_devices_by_type self search_target) then
    map (device_type_response root) (_matched_devices_by_type self search_target)
  else
    map (service_response root) (_matched_services_by_type self search_target).

(** The start line and [MAN] header the responder answers to. *)
Definition is_discover (request_line : string) (headers : CaseInsensitiveDict) : Prop :=
  request_line = "M-SEARCH * HTTP/1.1" /\
  Headers.get headers "MAN" = Some (HStr SSDP_DISCOVER).

(** [connected self sent]: the transport is there and was handed [sent]. *)
Definition connected (self : SsdpSearchResponder) (sent : list Datagram) : Prop :=
  _transport self = Some sent.

(** The state of [self] after [more] further datagrams. *)
Definition after (self : SsdpSearchResponder) (sent more : list Datagram) : SsdpSearchResponder :=
  mkResponder (device self) (Some (sent ++ more)).

(** ** A sample device tree and sample probes *)

Definition sample_service : UpnpService :=
  mkService "urn:schemas-upnp-org:service:DummySvc:1"
            "urn:upnp-org:serviceId:DummySvc" "uuid:root".

Definition sample_child_service : UpnpService :=
  mkService "urn:schemas-upnp-org:service:Inner:1"
            "urn:upnp-org:serviceId:Inner" "uuid:child".

Definition sample_child : UpnpDevice :=
  mkDevice "uuid:child" "urn:schemas-upnp-org:device:Embedded:1"
           "http://192.168.1.2:8000" "/device.xml" [sample_child_service] [].

Definition sample_root : UpnpDevice :=
  mkDevice "uuid:root" "urn:schemas-upnp-org:device:Dummy:1"
           "http://192.168.1.2:8000" "/device.xml" [sample_service] [sample_child].

Definition sample_peer : HeaderValue := HAddr (AddrV4 "192.168.1.10" 50000).

(** An [M-SEARCH] probe as the packet codec delivers it. *)
Definition sample_probe (st : string) : CaseInsensitiveDict :=
  [ ("HOST", HStr "239.255.255.250:1900");
    ("MAN", HStr SSDP_DISCOVER);
    ("MX", HStr "1");
    ("ST", HStr st);
    ("_remote_addr", sample_peer) ].

(** The same probe without a search target. *)
Definition sample_probe_no_st : CaseInsensitiveDict :=
  [ ("HOST", HStr "239.255.255.250:1900");
    ("MAN", HStr SSDP_DISCOVER);
    ("_remote_addr", sample_peer) ].

Definition sample_responder : SsdpSearchResponder :=
  mkResponder sample_root (Some []).

(** The [ST] and [USN] headers of the datagrams of a transport. *)
Definition st_usn (d : Datagram) : option string * option string :=
  (packet_header (fst d) "ST", packet_header (fst d) "USN").

Definition sent_st_usn (r : (SsdpExc + unit) * SsdpSearchResponder)
  : list (option string * option string) :=
  match _transport (snd r) with
  | Some sent => map st_usn sent
  | None => []
  end.

(** The order the responses to [ssdp:all] would have if each device's UDN
    response were directly followed by its device-type response. *)
Definition per_device_order (root : UpnpDevice) : list SsdpPacket :=
  rootdevice_response root
    :: flat_map (fun dev => [device_udn_response root dev; device_type_response root dev])
                (all_devices root)
    ++ map (service_response root) (all_services root).

(** The order of the two loops of [_async_on_data]: all UDN responses, then
    all device-type responses. *)
Definition per_kind_order (root : UpnpDevice) : list SsdpPacket :=
  rootdevice_response root
    :: map (device_udn_response root) (all_devices root)
    ++ map (device_type_response root) (all_devices root)
    ++ map (service_response root) (all_services root).

(** Datagrams of [packets] addressed to [addr]. *)
Definition to_peer (addr : HeaderValue) (packets : list SsdpPacket) : list Datagram :=
  map (fun p => (p, addr)) packets.

(** The [USN] of a packet names the root device: it is the root's UDN, or
    that UDN followed by [::] and more. *)
Definition usn_names_root (root : UpnpDevice) (p : SsdpPacket) : Prop :=
  exists usn,
    packet_header p "USN" = Some usn /\
    (usn = udn root \/ exists rest, usn = (udn root ++ "::" ++ rest)%string).

(** The search targets stored in the model. *)
Definition canonical_targets (root : UpnpDevice) : list string :=
  "upnp:rootdevice"
    :: map udn (all_devices root)
    ++ map device_type (all_devices root)
    ++ map service_type (all_services root).

(** The [ST] of every response is a target stored in the model, and (other
    than for [ssdp:all]) it is the probe's target up to letter case. *)
Definition st_is_canonical (root : UpnpDevice) (target : string) (p : SsdpPacket) : Prop :=
  exists c,
    packet_header p "ST" = Some c /\
    In c (canonical_targets root) /\
    (target <> SSDP_ST_ALL -> Text.lower c = target).

(** ** The advertisement announcer *)

Definition base_headers (root_device : UpnpDevice) : list (string * string) :=
  [ ("NTS", "ssdp:alive");
    ("SERVER", "async-upnp-client/1.0 UPnP/2.0 DummyServer/1.0");
    ("BOOTID.UPNP.ORG", "1");
    ("CONFIGID.UPNP.ORG", "1");
    ("LOCATION", (base_uri root_device ++ device_url root_device)%string) ].

Definition rootdevice_advertisement (root_device : UpnpDevice) : CaseInsensitiveDict :=
  Headers.extend (base_headers root_device)
    [ ("NT", "upnp:rootdevice");
      ("USN", (udn root_device ++ "::upnp:rootdevice")%string) ].

Definition device_udn_advertisement (root_device dev : UpnpDevice) : CaseInsensitiveDict :=
  Headers.extend (base_headers root_device) [ ("NT", udn dev); ("USN", udn dev) ].

Definition device_type_advertisement (root_device dev : UpnpDevice) : CaseInsensitiveDict :=
  Headers.extend (base_headers root_device)
    [ ("NT", device_type dev);
      ("USN", (udn dev ++ "::" ++ device_type dev)%string) ].

Definition service_advertisement
    (root_device : UpnpDevice) (service : UpnpService) : CaseInsensitiveDict :=
  Headers.extend (base_headers root_device)
    [ ("NT", service_type service);
      ("USN", (device_udn service ++ "::" ++ service_type service)%string) ].

(** [_build_advertisements]: the list starts empty and every [append] adds
    at its end. *)
Definition _build_advertisements (root_device : UpnpDevice) : list CaseInsensitiveDict :=
  let advertisements := [] in
  let advertisements := advertisements ++ [rootdevice_advertisement root_device] in
  let advertisements :=
    fold_left
      (fun ads dev =>
         (ads ++ [device_udn_advertisement root_device dev])
           ++ [device_type_advertisement root_device dev])
      (all_devices root_device) advertisements in
  let advertisements :=
    fold_left (fun ads service => ads ++ [service_advertisement root_device service])
              (all_services root_device) advertisements in
  advertisements.

Module Announcer.

(** A NOTIFY packet as handed to [build_ssdp_packet], with its
    destination. *)
Definition Notify := (string * CaseInsensitiveDict * AddressTupleVXType)%type.

(** [SsdpAdvertisementAnnouncer]. *)
Record SsdpAdvertisementAnnouncer := mkAnnouncer {
  device : UpnpDevice;
  target : AddressTupleVXType;
  _transport : option (list Notify);
  _advertisements : list CaseInsensitiveDict;
  _advertisement_index : nat
}.

(** [__init__]: no transport yet, the advertisements built from the
    device, the cursor at 0. *)
Definition init (dev : UpnpDevice) (tgt : AddressTupleVXType) : SsdpAdvertisementAnnouncer :=
  mkAnnouncer dev tgt None (_build_advertisements dev) 0.

(** [_async_on_connect]. *)
Definition _async_on_connect (self : SsdpAdvertisementAnnouncer) (sent : list Notify)
  : SsdpAdvertisementAnnouncer :=
  mkAnnouncer (device self) (target self) (Some sent)
              (_advertisements self) (_advertisement_index self).

(** [headers[key]] as read for the debug log. *)
Definition has_key (headers : CaseInsensitiveDict) (key : string) : bool :=
  match Headers.get headers key with Some _ => true | None => false end.

(** [_announce_next]: one tick of the timer.  The cursor is advanced
    before the packet is built and sent. *)
Definition _announce_next (self : SsdpAdvertisementAnnouncer)
  : SsdpExc + SsdpAdvertisementAnnouncer :=
  match _transport self with
  | None => inl AssertionError
  | Some sent =>
      let start_line := "NOTIFY * HTTP/1.1" in
      match nth_error (_advertisements self) (_advertisement_index self) with
      | None => inl IndexError
      | Some headers =>
          let index := (_advertisement_index self + 1) mod length (_advertisements self) in
          if negb (has_key headers "NTS") then inl (KeyError "NTS")
          else if negb (has_key headers "NT") then inl (KeyError "NT")
          else if negb (has_key headers "USN") then inl (KeyError "USN")
          else inr (mkAnnouncer (device self) (target self)
                      (Some (sent ++ [(start_line, headers, target self)]))
                      (_advertisements self) index)
      end
  end.

(** [n] consecutive ticks. *)
Fixpoint ticks (n : nat) (self : SsdpAdvertisementAnnouncer)
  : SsdpExc + SsdpAdvertisementAnnouncer :=
  match n with
  | O => inr self
  | S m =>
      match ticks m self with
      | inl e => inl e
      | inr self' => _announce_next self'
      end
  end.

(** The advertisement in slot [i]. *)
Definition slot (self : SsdpAdvertisementAnnouncer) (i : nat) : CaseInsensitiveDict :=
  nth i (_advertisements self) [].

End Announcer.

Definition sample_target : AddressTupleVXType := AddrV4 "239.255.255.250" 1900.

Definition sample_announcer : Announcer.SsdpAdvertisementAnnouncer :=
  Announcer._async_on_connect (Announcer.init sample_root sample_target) [].

(** ** The SOAP action dispatcher *)

(** [xml.etree.ElementTree.Element]: tag, attributes, text and child
    elements.  A parsed element of a namespace carries its tag in the form
    [{uri}local]. *)
Inductive Element := mkElement {
  tag : string;
  attrib : list (string * string);
  text : option string;
  children : list Element
}.

(** [ET.SubElement(parent, tag).text = value] for an element without
    children. *)
Definition leaf (name value : string) : Element :=
  mkElement name [] (Some value) [].

Definition NAMESPACES : list (string * string) :=
  [ ("s", "http://schemas.xmlsoap.org/soap/envelope/");
    ("es", "http://schemas.xmlsoap.org/soap/encoding/") ].

(** The tag a prefixed path step [prefix:local] stands for. *)
Definition qualified (namespaces : list (string * string)) (prefix local : string) : string :=
  match assoc namespaces prefix with
  | Some uri => ("{" ++ uri ++ "}" ++ local)%string
  | None => (prefix ++ ":" ++ local)%string
  end.

(** [element.find(step)]: the first direct child with that tag. *)
Definition find_child (el : Element) (name : string) : option Element :=
  List.find (fun child => String.eqb (tag child) name) (children el).

(** The element reached from [el] through the child tags [path]. *)
Fixpoint find_path (el : Element) (path : list string) : option Element :=
  match path with
  | [] => Some el
  | name :: rest =>
      match find_child el name with
      | Some child => find_path child rest
      | None => None
      end
  end.

(** Host values of coerced arguments. *)
Inductive PyValue :=
| PyInt (n : Z)
| PyBool (b : bool)
| PyStr (s : string).

(** Modelled from the spec: the exceptions that cross the dispatcher.
    [UpnpActionError] carries an optional integer [error_code];
    [UpnpValueError] is the argument-value error and is not an action error;
    [UpnpError] stands for any other error of the library and [OtherError]
    for any other exception. *)
Inductive PyExc :=
| HTTPBadRequest (reason : string)
| UpnpActionError (error_code : option Z)
| UpnpValueError
| UpnpError
| OtherError (name : string).

(** Modelled from the spec: [UpnpStateVariable].  [coerce_python] is the
    parse function of the variable's data type, which returns a host value or
    raises; [upnp_value] is the rendering of the current value. *)
Record UpnpStateVariable := mkStateVariable {
  sv_name : string;
  data_type : string;
  coerce_python : string -> PyExc + PyValue;
  upnp_value : string
}.

Inductive Direction := In_ | Out_.

Definition direction_eqb (a b : Direction) : bool :=
  match a, b with
  | In_, In_ | Out_, Out_ => true
  | _, _ => false
  end.

(** Modelled from the spec: [UpnpAction.Argument]. *)
Record Argument := mkArgument {
  arg_name : string;
  direction : Direction;
  related_state_variable : UpnpStateVariable
}.

(** Keyword arguments: names with values, in insertion order. *)
Definition Kwargs := list (string * PyValue).

(** [kwargs[name] = value]. *)
Fixpoint kwargs_set (kwargs : Kwargs) (name : string) (value : PyValue) : Kwargs :=
  match kwargs with
  | [] => [(name, value)]
  | (k, v) :: r =>
      if String.eqb k name then (k, value) :: r else (k, v) :: kwargs_set r name value
  end.

(** [UpnpServerAction]: the argument list, the validation of the client
    module and the bound handler, which returns the out-arguments or
    raises. *)
Record UpnpServerAction := mkAction {
  action_name : string;
  arguments : list Argument;
  validate_arguments : Kwargs -> option PyExc;
  async_handle : Kwargs -> PyExc + list (string * UpnpStateVariable)
}.

(** Modelled from the spec: [action.argument(name, direction)], the first
    argument with that name and direction. *)
Definition argument (action : UpnpServerAction) (name : string) (dir : Direction)
  : option Argument :=
  List.find (fun arg => String.eqb (arg_name arg) name && direction_eqb (direction arg) dir)
            (arguments action).

(** [UpnpServerService]: the service type and the actions by name. *)
Record UpnpServerService := mkServerService {
  server_service_type : string;
  actions : list (string * UpnpServerAction)
}.

(** [service.actions.get(name)]. *)
Fixpoint action (service_actions : list (string * UpnpServerAction)) (name : string)
  : option UpnpServerAction :=
  match service_actions with
  | [] => None
  | (k, a) :: r => if String.eqb k name then Some a else action r name
  end.

(** A POST request: the headers, matched case-insensitively, and the body as
    the XML parser returns it ([None] when parsing raises). *)
Record Request := mkRequest {
  request_headers : list (string * string);
  request_xml : option Element
}.

(** [request.headers.get(name, default)]. *)
Fixpoint header_get (h : list (string * string)) (name default : string) : string :=
  match h with
  | [] => default
  | (k, v) :: r =>
      if String.eqb (Text.lower k) (Text.lower name) then v else header_get r name default
  end.

(** The argument loop of [_parse_action_body]. *)
Fixpoint parse_arguments (act : UpnpServerAction) (args : list Element) (kwargs : Kwargs)
  : PyExc + Kwargs :=
  match args with
  | [] => inr kwargs
  | arg :: rest =>
      match argument act (tag arg) In_ with
      | None => inl (HTTPBadRequest "InvalidActionArgument")
      | Some action_arg =>
          let state_var := related_state_variable action_arg in
          match coerce_python state_var
                  (match text arg with Some t => t | None => "" end) with
          | inl exc => inl exc
          | inr value => parse_arguments act rest (kwargs_set kwargs (tag arg) value)
          end
      end
  end.

Definition _parse_action_body (service : UpnpServerService) (request : Request)
  : PyExc + (string * Kwargs) :=
  let soap_action :=
    Text.strip Text.dquote (header_get (request_headers request) "SOAPAction" "") in
  let parsed :=
    match Text.split "#" soap_action with
    | [_; name] =>
        match request_xml request with
        | None => None
        | Some root_el =>
            match find_child root_el (qualified NAMESPACES "s" "Body") with
            | None => None
            | Some body_el =>
                match children body_el with
                | [] => None
                | rpc_el :: _ => Some (name, rpc_el)
                end
            end
        end
    | _ => None
    end in
  match parsed with
  | None => inl (HTTPBadRequest "InvalidSoap")
  | Some (name, rpc_el) =>
      match action (actions service) name with
      | None => inl (HTTPBadRequest "InvalidAction")
      | Some act =>
          match parse_arguments act (children rpc_el) [] with
          | inl exc => inl exc
          | inr kwargs => inr (name, kwargs)
          end
      end
  end.

(** [aiohttp.web.Response]. *)
Record Response := mkResponse {
  status : Z;
  content_type : string;
  charset : string;
  body : option Element
}.

Definition _create_action_response
    (service : UpnpServerService) (name : string)
    (result : list (string * UpnpStateVariable)) : Response :=
  let response_el :=
    mkElement ("st:" ++ name ++ "Response")%string
              [("xmlns:st", server_service_type service)] None
              (map (fun kv => leaf (fst kv) (upnp_value (snd kv))) result) in
  let body_el := mkElement "s:Body" [] None [response_el] in
  let envelope_el :=
    mkElement "s:Envelope"
              [ ("xmlns:s", "http://schemas.xmlsoap.org/soap/envelope/");
                ("s:encodingStyle", "http://schemas.xmlsoap.org/soap/encoding/") ]
              None [body_el] in
  mkResponse 200 "text/xml" "utf-8" (Some envelope_el).

(** Modelled from the spec: [UpnpActionErrorCode.ACTION_FAILED.value]. *)
Definition ACTION_FAILED : Z := 501.

(** [a or b] on an optional integer: [None] and [0] are false. *)
Definition or_default (a : option Z) (b : Z) : Z :=
  match a with
  | Some c => if Z.eqb c 0 then b else c
  | None => b
  end.

(** The conditional expression that picks the error code. *)
Definition fault_code (exception : PyExc) : Z :=
  match exception with
  | UpnpActionError error_code => or_default error_code ACTION_FAILED
  | UpnpValueError => 402
  | _ => 501
  end.

Definition _create_error_action_response (exception : PyExc) : Response :=
  let error_code := fault_code exception in
  let error_el :=
    mkElement "UPnPError" [("xmlns", "urn:schemas-upnp-org:control-1-0")] None
              [ leaf "errorCode" (Text.str_of_int error_code);
                leaf "errorDescription" "Action Failed" ] in
  let detail_el := mkElement "detail" [] None [error_el] in
  let fault_el :=
    mkElement "s:Fault" [] None
              [ leaf "faultcode" "s:Client"; leaf "faultstring" "UPnPError"; detail_el ] in
  let body_el := mkElement "s:Body" [] None [fault_el] in
  let envelope_el :=
    mkElement "s:Envelope"
              [ ("xmlns:s", "http://schemas.xmlsoap.org/soap/envelope/");
                ("s:encodingStyle", "http://schemas.xmlsoap.org/soap/encoding/") ]
              None [body_el] in
  mkResponse 500 "text/xml" "utf-8" (Some envelope_el).

(** A call of a bound handler: the action and the keyword arguments. *)
Definition Invocation := (string * Kwargs)%type.

(** [service.async_handle_action]: validation, then the bound handler.  The
    second component lists the handler calls made. *)
Definition async_handle_action
    (service : UpnpServerService) (name : string) (kwargs : Kwargs)
  : (PyExc + list (string * UpnpStateVariable)) * list Invocation :=
  match action (actions service) name with
  | None => (inl (OtherError "KeyError"), [])
  | Some act =>
      match validate_arguments act kwargs with
      | Some exc => (inl exc, [])
      | None => (async_handle act kwargs, [(name, kwargs)])
      end
  end.

(** [action_handler]: what it returns or raises, and the handler calls it
    made. *)
Definition action_handler (service : UpnpServerService) (request : Request)
  : (PyExc + Response) * list Invocation :=
  match _parse_action_body service request with
  | inl exc => (inl exc, [])
  | inr (name, kwargs) =>
      match async_handle_action service name kwargs with
      | (inl UpnpValueError, calls) =>
          (inr (_create_error_action_response UpnpValueError), calls)
      | (inl (UpnpActionError code), calls) =>
          (inr (_create_error_action_response (UpnpActionError code)), calls)
      | (inl exc, calls) => (inl exc, calls)
      | (inr call_result, calls) =>
          (inr (_create_action_response service name call_result), calls)
      end
  end.

(** The [errorCode] text of a SOAP fault response. *)
Definition fault_error_code (response : Response) : option string :=
  match body response with
  | Some envelope_el =>
      match find_path envelope_el ["s:Body"; "s:Fault"; "detail"; "UPnPError"; "errorCode"] with
      | Some el => text el
      | None => None
      end
  | None => None
  end.

(** A response is a SOAP fault when its envelope has an [s:Fault] in its
    body. *)
Definition is_soap_fault (response : Response) : bool :=
  match body response with
  | Some envelope_el =>
      match find_path envelope_el ["s:Body"; "s:Fault"] with
      | Some _ => true
      | None => false
      end
  | None => false
  end.

(** Modelled from the spec: the HTTP framework answers a raised
    [HTTPBadRequest] with status 400 and its reason. *)
Definition bad_request (outcome : PyExc + Response) (reason : string) : Prop :=
  outcome = inl (HTTPBadRequest reason).

(** ** A sample service and sample requests *)

(** Parse of the [boolean] data type. *)
Definition coerce_boolean (t : string) : PyExc + PyValue :=
  if String.eqb t "1" || String.eqb t "true" || String.eqb t "yes" then inr (PyBool true)
  else if String.eqb t "0" || String.eqb t "false" || String.eqb t "no" then inr (PyBool false)
  else inl (OtherError "ValueError").

(** Parse of an unsigned decimal number. *)
Fixpoint decimal (t : string) (acc : Z) : option Z :=
  match t with
  | EmptyString => Some acc
  | String c r =>
      let d := nat_of_ascii c in
      if (48 <=? d)%nat && (d <=? 57)%nat
      then decimal r (10 * acc + Z.of_nat (d - 48))
      else None
  end.

Definition coerce_ui1 (t : string) : PyExc + PyValue :=
  match t with
  | EmptyString => inl (OtherError "ValueError")
  | _ => match decimal t 0 with
         | Some n => if (n <=? 255)%Z then inr (PyInt n) else inl (OtherError "ValueError")
         | None => inl (OtherError "ValueError")
         end
  end.

Definition sample_target_var : UpnpStateVariable :=
  mkStateVariable "Target" "boolean" coerce_boolean "0".

Definition sample_level_var : UpnpStateVariable :=
  mkStateVariable "Level" "ui1" coerce_ui1 "0".

Definition no_validation (kwargs : Kwargs) : option PyExc := None.

Definition sample_set_target : UpnpServerAction :=
  mkAction "SetTarget"
           [ mkArgument "NewTargetValue" In_ sample_target_var;
             mkArgument "NewLevel" In_ sample_level_var ]
           no_validation (fun _ => inr []).

(** An action whose handler signals an action error with a code. *)
Definition sample_refuse : UpnpServerAction :=
  mkAction "Refuse" [] no_validation (fun _ => inl (UpnpActionError (Some 718%Z))).

(** An action whose handler raises an exception of another kind. *)
Definition sample_crash : UpnpServerAction :=
  mkAction "Crash" [] no_validation (fun _ => inl (OtherError "RuntimeError")).

Definition sample_server_service : UpnpServerService :=
  mkServerService "urn:schemas-upnp-org:service:DummySvc:1"
    [ ("SetTarget", sample_set_target);
      ("Refuse", sample_refuse);
      ("Crash", sample_crash) ].

Definition soap_tag (local : string) : string := qualified NAMESPACES "s" local.

(** The request element of a call of [name] with the argument elements
    [args]. *)
Definition sample_rpc (name : string) (args : list Element) : Element :=
  mkElement ("{urn:schemas-upnp-org:service:DummySvc:1}" ++ name)%string [] None args.

(** A SOAP request for action [name] with the argument elements [args],
    under a root element with tag [root_tag]. *)
Definition sample_request_under (root_tag name : string) (args : list Element) : Request :=
  mkRequest
    [ ("Content-Type", "text/xml");
      ("SOAPAction",
       String Text.dquote
         ("urn:schemas-upnp-org:service:DummySvc:1#" ++ name ++ String Text.dquote "")%string) ]
    (Some (mkElement root_tag [] None
             [ mkElement (soap_tag "Body") [] None
                 [ sample_rpc name args ] ])).

Definition sample_request (name : string) (args : list Element) : Request :=
  sample_request_under (soap_tag "Envelope") name args.

(** The SOAPAction value after the surrounding quotes are stripped. *)
Definition soap_action_of (request : Request) : string :=
  Text.strip Text.dquote (header_get (request_headers request) "SOAPAction" "").

(** [soap_call request name rpc_el]: the request passes the checks of the
    [try] block of [_parse_action_body]: the SOAPAction value splits on [#]
    into two parts, the second being [name], the body parsed, its root has an
    [s:Body] child, and [rpc_el] is the first child of that. *)
Definition soap_call (request : Request) (name : string) (rpc_el : Element) : Prop :=
  exists prefix root_el body_el rest,
    Text.split "#" (soap_action_of request) = [prefix; name] /\
    request_xml request = Some root_el /\
    find_child root_el (qualified NAMESPACES "s" "Body") = Some body_el /\
    children body_el = rpc_el :: rest.

(** ** Further parts of the announcer *)

(** [_send_byebye]: one NOTIFY with [ssdp:byebye] for the root device.  The
    headers are a plain dictionary; they reach the transport as the packet
    builder receives them. *)
Definition _send_byebye (self : Announcer.SsdpAdvertisementAnnouncer)
  : SsdpExc + Announcer.SsdpAdvertisementAnnouncer :=
  match Announcer._transport self with
  | None => inl AssertionError
  | Some sent =>
      let start_line := "NOTIFY * HTTP/1.1" in
      let headers :=
        [ ("NTS", "ssdp:byebye");
          ("SERVER", "async-upnp-client/1.0 UPnP/2.0 DummyServer/1.0");
          ("NT", "upnp:rootdevice");
          ("USN", (udn (Announcer.device self) ++ "::upnp:rootdevice")%string);
          ("LOCATION",
           (base_uri (Announcer.device self) ++ device_url (Announcer.device self))%string) ] in
      inr (Announcer.mkAnnouncer (Announcer.device self) (Announcer.target self)
             (Some (sent ++ [(start_line, Headers.extend headers [], Announcer.target self)]))
             (Announcer._advertisements self) (Announcer._advertisement_index self))
  end.

(** The three headers that identify what a packet is about. *)
Definition response_identity (p : SsdpPacket) : list (option HeaderValue) :=
  map (fun name => option_map HStr (packet_header p name)) ["ST"; "USN"; "LOCATION"].

Definition advertisement_identity (headers : CaseInsensitiveDict) : list (option HeaderValue) :=
  map (Headers.get headers) ["NT"; "USN"; "LOCATION"].

(** ** The description serializer *)

(** Modelled from the spec: an icon of a device. *)
Record DeviceIcon := mkIcon {
  mimetype : string;
  width : Z;
  height : Z;
  depth : Z;
  icon_url : string
}.

(** Modelled from the spec: the descriptive strings of a device, each
    possibly unset, and its icons. *)
Record DeviceDescription := mkDescription {
  friendly_name : option string;
  manufacturer : option string;
  manufacturer_url : option string;
  model_description : option string;
  model_name : option string;
  model_number : option string;
  model_url : option string;
  serial_number : option string;
  upc : option string;
  presentation_url : option string;
  icons : list DeviceIcon
}.

(** Modelled from the spec: the three relative URLs of a service. *)
Record ServiceUrls := mkServiceUrls {
  control_url : string;
  event_sub_url : string;
  scpd_url : string
}.

(** [ET.SubElement(parent, tag).text = value] where the value may be
    [None]. *)
Definition sub_element (name : string) (value : option string) : Element :=
  mkElement name [] value [].

(** Modelled from the spec: [action.in_arguments()] and
    [action.out_arguments()]. *)
Definition in_arguments (act : UpnpServerAction) : list Argument :=
  filter (fun arg => direction_eqb (direction arg) In_) (arguments act).

Definition out_arguments (act : UpnpServerAction) : list Argument :=
  filter (fun arg => direction_eqb (direction arg) Out_) (arguments act).

Definition direction_text (d : Direction) : string :=
  match d with In_ => "in" | Out_ => "out" end.

Definition _action_argument_to_xml (argument : Argument) : Element :=
  mkElement "argument" [] None
    [ leaf "name" (arg_name argument);
      leaf "direction" (direction_text (direction argument));
      leaf "relatedStateVariable" (sv_name (related_state_variable argument)) ].

Definition _action_to_xml (act : UpnpServerAction) : Element :=
  mkElement "action" [] None
    (leaf "name" (action_name act)
       :: match arguments act with
          | [] => []
          | _ :: _ =>
              [ mkElement "argumentList" [] None
                  (map _action_argument_to_xml (in_arguments act)
                     ++ map _action_argument_to_xml (out_arguments act)) ]
          end).

Section DeviceDescriptionXml.

Variable describe : UpnpDevice -> DeviceDescription.
Variable urls : UpnpService -> ServiceUrls.

Definition icon_to_xml (icon : DeviceIcon) : Element :=
mkElement "icon" [] None
  [ leaf "mimetype" (mimetype icon);
    leaf "width" (Text.str_of_int (width icon));
    leaf "height" (Text.str_of_int (height icon));
    leaf "depth" (Text.str_of_int (depth icon));
    leaf "url" (icon_url icon) ].

Definition service_to_xml_entry (service : UpnpService) : Element :=
mkElement "service" [] None
  [ leaf "serviceType" (service_type service);
    leaf "serviceId" (service_id service);
    leaf "controlURL" (control_url (urls service));
    leaf "eventSubURL" (event_sub_url (urls service));
    leaf "SCPDURL" (scpd_url (urls service)) ].

Fixpoint _device_to_xml_bare (dev : UpnpDevice) : Element :=
mkElement "device" [("xmlns", "urn:schemas-upnp-org:device-1-0")] None
  [ leaf "deviceType" (device_type dev);
    sub_element "friendlyName" (friendly_name (describe dev));
    sub_element "manufacturer" (manufacturer (describe dev));
    sub_element "manufacturerURL" (manufacturer_url (describe dev));
    sub_element "modelDescription" (model_description (describe dev));
    sub_element "modelName" (model_name (describe dev));
    sub_element "modelNumber" (model_number (describe dev));
    sub_element "modelURL" (model_url (describe dev));
    sub_element "serialNumber" (serial_number (describe dev));
    leaf "UDN" (udn dev);
    sub_element "UPC" (upc (describe dev));
    sub_element "presentationURL" (presentation_url (describe dev));
    mkElement "iconList" [] None (map icon_to_xml (icons (describe dev)));
    mkElement "serviceList" [] None (map service_to_xml_entry (services dev));
    mkElement "deviceList" [] None (map _device_to_xml_bare (embedded_devices dev)) ].

Definition _device_to_xml (dev : UpnpDevice) : Element :=
mkElement "root" [("xmlns", "urn:schemas-upnp-org:device-1-0")] None
  [ mkElement "specVersion" [] None [leaf "major" "1"; leaf "minor" "0"];
    _device_to_xml_bare dev ].

End DeviceDescriptionXml.

(** The texts of the elements with tag [name] in [el], in document order. *)
Fixpoint texts_of (name : string) (el : Element) : list (option string) :=
  (if String.eqb (tag el) name then [text el] else [])
    ++ flat_map (texts_of name) (children el).

(** The rows of the argument list of an action element: name, direction and
    related state variable of each [argument]. *)
Definition argument_rows (action_el : Element) : list (list (option string)) :=
  match find_child action_el "argumentList" with
  | Some list_el =>
      map (fun arg_el => map (fun el => text el) (children arg_el)) (children list_el)
  | None => []
  end.

Definition argument_row (argument : Argument) : list (option string) :=
  [ Some (arg_name argument);
    Some (direction_text (direction argument));
    Some (sv_name (related_state_variable argument)) ].

Definition sample_description (dev : UpnpDevice) : DeviceDescription :=
  mkDescription (Some "Dummy") (Some "Acme") None None (Some "Model") None None None None None
                [mkIcon "image/png" 48 48 24 "/icon.png"].

Definition sample_urls (service : UpnpService) : ServiceUrls :=
  mkServiceUrls "/control" "/event" "/scpd.xml".

Definition sample_get_status : UpnpServerAction :=
  mkAction "GetStatus"
           [ mkArgument "ResultStatus" Out_ sample_target_var;
             mkArgument "Channel" In_ sample_level_var;
             mkArgument "ResultLevel" Out_ sample_level_var ]
           no_validation (fun _ => inr []).

(** ** Binding of action handlers *)

(** The Python types a handler parameter can be annotated with. *)
Inductive PyType :=
| PyTypeInt
| PyTypeBool
| PyTypeStr
| PyTypeFloat
| PyTypeOther (name : string).

Definition pytype_eqb (a b : PyType) : bool :=
  match a, b with
  | PyTypeInt, PyTypeInt | PyTypeBool, PyTypeBool
  | PyTypeStr, PyTypeStr | PyTypeFloat, PyTypeFloat => true
  | PyTypeOther x, PyTypeOther y => String.eqb x y
  | _, _ => false
  end.

(** A method decorated with [callable_action]: the attribute
    [__upnp_action__] (name, in-arguments, out-arguments; the two mappings
    from argument name to state variable name, in insertion order), the
    parameter annotations, and the method itself. *)
Record ActionFunction := mkActionFunction {
  upnp_action_name : string;
  upnp_in_args : list (string * string);
  upnp_out_args : list (string * string);
  annotations : list (string * PyType);
  call : Kwargs -> PyExc + list (string * UpnpStateVariable)
}.

(** [mapping.get(name)] on a dictionary kept in insertion order. *)
Fixpoint lookup {V} (mapping : list (string * V)) (name : string) : option V :=
  match mapping with
  | [] => None
  | (k, v) :: r => if String.eqb k name then Some v else lookup r name
  end.

(** [mapping[name] = value]. *)
Fixpoint store {V} (mapping : list (string * V)) (name : string) (value : V)
  : list (string * V) :=
  match mapping with
  | [] => [(name, value)]
  | (k, v) :: r =>
      if String.eqb k name then (k, value) :: r else (k, v) :: store r name value
  end.

Section ActionBinding.

(** Modelled from the spec: the host type a state variable's data type maps
  to ([data_type_mapping["type"]]) and the argument validation of the
  client module, for a given argument list. *)
Variable data_type_python : UpnpStateVariable -> PyType.
Variable client_validate : list Argument -> Kwargs -> option PyExc.

(** Modelled from the spec: [service.state_variable(name)] raises when the
  service has no such variable. *)
Definition state_variable (state_variables : list (string * UpnpStateVariable))
  (name : string) : PyExc + UpnpStateVariable :=
match lookup state_variables name with
| Some state_var => inr state_var
| None => inl (OtherError "KeyError")
end.

(** The first loop of [_init_action]. *)
Fixpoint build_in_arguments (state_variables : list (string * UpnpStateVariable))
  (func : ActionFunction) (in_args : list (string * string)) : PyExc + list Argument :=
match in_args with
| [] => inr []
| (name, state_var_name) :: rest =>
    match lookup (annotations func) name with
    | None => inl (OtherError "AssertionError")
    | Some annotation =>
        match state_variable state_variables state_var_name with
        | inl exc => inl exc
        | inr state_var =>
            if negb (pytype_eqb (data_type_python state_var) annotation)
            then inl (OtherError "AssertionError")
            else
              match build_in_arguments state_variables func rest with
              | inl exc => inl exc
              | inr args => inr (mkArgument name In_ state_var :: args)
              end
        end
    end
end.

(** The second loop of [_init_action]. *)
Fixpoint build_out_arguments (state_variables : list (string * UpnpStateVariable))
  (out_args : list (string * string)) : PyExc + list Argument :=
match out_args with
| [] => inr []
| (name, state_var_name) :: rest =>
    match state_variable state_variables state_var_name with
    | inl exc => inl exc
    | inr state_var =>
        match build_out_arguments state_variables rest with
        | inl exc => inl exc
        | inr args => inr (mkArgument name Out_ state_var :: args)
        end
    end
end.

(** [_init_action]: the new [actions] of the service and the action. *)
Definition _init_action
  (state_variables : list (string * UpnpStateVariable))
  (service_actions : list (string * UpnpServerAction))
  (func : ActionFunction)
: PyExc + (list (string * UpnpServerAction) * UpnpServerAction) :=
match build_in_arguments state_variables func (upnp_in_args func) with
| inl exc => inl exc
| inr ins =>
    match build_out_arguments state_variables (upnp_out_args func) with
    | inl exc => inl exc
    | inr outs =>
        let args := ins ++ outs in
        let act :=
          mkAction (upnp_action_name func) args (client_validate args) (call func) in
        inr (store service_actions (upnp_action_name func) act, act)
    end
end.

End ActionBinding.

(** Host type of the sample data types. *)
Definition sample_python_type (state_var : UpnpStateVariable) : PyType :=
  if String.eqb (data_type state_var) "boolean" then PyTypeBool
  else if String.eqb (data_type state_var) "ui1" then PyTypeInt
  else PyTypeStr.

Definition sample_state_variables : list (string * UpnpStateVariable) :=
  [ ("Target", sample_target_var); ("Level", sample_level_var) ].

Definition sample_function : ActionFunction :=
  mkActionFunction "SetLevel"
    [ ("NewLevel", "Level") ] [ ("OldLevel", "Level"); ("Status", "Target") ]
    [ ("NewLevel", PyTypeInt); ("return", PyTypeOther "Dict") ]
    (fun _ => inr []).

(** An argument built for a declaration: its name, its direction, and the
    state variable registered under the declared name. *)
Definition built_for (state_variables : list (string * UpnpStateVariable))
    (dir : Direction) (arg : Argument) (decl : string * string) : Prop :=
  arg_name arg = fst decl /\ direction arg = dir /\
  lookup state_variables (snd decl) = Some (related_state_variable arg).

(** ** The HTTP routes *)

(** The handlers the server registers, each bound to its device or service
    as by [partial]. *)
Inductive RouteHandler :=
| DescribeDevice (dev : UpnpDevice)
| DescribeService (service : UpnpService)
| HandleAction (service : UpnpService)
| HandleSubscribe (service : UpnpService).

Record Route := mkRoute {
  route_method : string;
  route_path : string;
  route_handler : RouteHandler
}.

(** The routes added to the application by [_async_start_http_server], in
    the order of the calls.  The URLs are those of the service definition,
    which are also the URLs the service object shows to the serializer. *)
Definition server_routes (urls : UpnpService -> ServiceUrls) (dev : UpnpDevice) : list Route :=
  let routes := [mkRoute "GET" (device_url dev) (DescribeDevice dev)] in
  fold_left
    (fun routes service =>
       routes
         ++ [mkRoute "GET" (scpd_url (urls service)) (DescribeService service)]
         ++ [mkRoute "POST" (control_url (urls service)) (HandleAction service)]
         ++ [mkRoute "SUBSCRIBE" (event_sub_url (urls service)) (HandleSubscribe service)])
    (all_services dev) routes.

(** * Proofs *)

(** ** Text helpers on examples *)

Example lower_example : Text.lower "SSDP:All" = "ssdp:all".
Proof. reflexivity. Qed.

Example split_example : Text.split "#" "urn:x:DummySvc:1#SetTarget" = ["urn:x:DummySvc:1"; "SetTarget"].
Proof. reflexivity. Qed.

Example split_none_example : Text.split "#" "" = [""].
Proof. reflexivity. Qed.

Example strip_example :
  Text.strip Text.dquote (String Text.dquote ("a#b" ++ String Text.dquote "")%string) = "a#b".
Proof. reflexivity. Qed.

Example str_of_int_example :
  Text.str_of_int 501 = "501" /\ Text.str_of_int 0 = "0" /\ Text.str_of_int (-12) = "-12".
Proof. repeat split; reflexivity. Qed.

(** ** The sample tree on examples *)

Example sample_all_devices :
  map udn (all_devices sample_root) = ["uuid:root"; "uuid:child"].
Proof. reflexivity. Qed.

Example sample_all_services :
  map service_type (all_services sample_root)
  = ["urn:schemas-upnp-org:service:DummySvc:1"; "urn:schemas-upnp-org:service:Inner:1"].
Proof. reflexivity. Qed.

Example sample_rootdevice_probe :
  sent_st_usn (_async_on_data "M-SEARCH * HTTP/1.1" (sample_probe "upnp:rootdevice")
                 sample_responder)
  = [(Some "upnp:rootdevice", Some "uuid:root::upnp:rootdevice")].
Proof. reflexivity. Qed.

Example sample_all_probe :
  sent_st_usn (_async_on_data "M-SEARCH * HTTP/1.1" (sample_probe "ssdp:all")
                 sample_responder)
  = [ (Some "upnp:rootdevice", Some "uuid:root::upnp:rootdevice");
      (Some "uuid:root", Some "uuid:root");
      (Some "uuid:child", Some "uuid:root");
      (Some "urn:schemas-upnp-org:device:Dummy:1",
       Some "uuid:root::urn:schemas-upnp-org:device:Dummy:1");
      (Some "urn:schemas-upnp-org:device:Embedded:1",
       Some "uuid:root::urn:schemas-upnp-org:device:Embedded:1");
      (Some "urn:schemas-upnp-org:service:DummySvc:1",
       Some "uuid:root::urn:schemas-upnp-org:service:DummySvc:1");
      (Some "urn:schemas-upnp-org:service:Inner:1",
       Some "uuid:root::urn:schemas-upnp-org:service:Inner:1") ].
Proof. reflexivity. Qed.

Lemma sample_probe_is_discover st :
  is_discover "M-SEARCH * HTTP/1.1" (sample_probe st).
Proof. split; reflexivity. Qed.

(** ** Runs of the responder *)

Section ResponderRuns.

Variable root : UpnpDevice.

Lemma get_key_case (h : CaseInsensitiveDict) (k1 k2 : string) :
  Text.lower k1 = Text.lower k2 -> Headers.get h k1 = Headers.get h k2.
Proof.
  intros E. induction h as [|[k v] r IH]; simpl; [reflexivity|].
  rewrite E, IH. reflexivity.
Qed.

Lemma run_send_response sent addr st usn :
  _async_send_response addr st usn (mkResponder root (Some sent))
  = (inr tt, mkResponder root (Some (sent ++ [(search_response root st usn, addr)]))).
Proof. reflexivity. Qed.

Lemma run_rootdevice sent addr :
  _async_send_response_rootdevice addr (mkResponder root (Some sent))
  = (inr tt, mkResponder root (Some (sent ++ [(rootdevice_response root, addr)]))).
Proof. reflexivity. Qed.

Lemma run_device_udn sent addr dev :
  _async_send_responses_device_udn addr dev (mkResponder root (Some sent))
  = (inr tt, mkResponder root (Some (sent ++ [(device_udn_response root dev, addr)]))).
Proof. reflexivity. Qed.

Lemma run_device_type sent addr dev :
  _async_send_responses_device_type addr dev (mkResponder root (Some sent))
  = (inr tt, mkResponder root (Some (sent ++ [(device_type_response root dev, addr)]))).
Proof. reflexivity. Qed.

Lemma run_service sent addr service :
  _async_send_responses_service addr service (mkResponder root (Some sent))
  = (inr tt, mkResponder root (Some (sent ++ [(service_response root service, addr)]))).
Proof. reflexivity. Qed.

(** A loop whose body sends one datagram per element sends them in the
    order of the list. *)
Lemma run_for_each {X} (body : X -> M unit) (g : X -> Datagram) :
  (forall x sent,
      body x (mkResponder root (Some sent))
      = (inr tt, mkResponder root (Some (sent ++ [g x])))) ->
  forall xs sent,
    for_each xs body (mkResponder root (Some sent))
    = (inr tt, mkResponder root (Some (sent ++ map g xs))).
Proof.
  intros Hbody xs. induction xs as [|x r IH]; intros sent; simpl.
  - rewrite app_nil_r. reflexivity.
  - unfold bind. rewrite Hbody, IH, <- app_assoc. reflexivity.
Qed.

Lemma run_bind {A B} (m : M A) (k : A -> M B) self a self' :
  m self = (inr a, self') -> bind m k self = k a self'.
Proof. intros E. unfold bind. rewrite E. reflexivity. Qed.

Lemma man_differs_discover headers :
  man_differs headers = false <->
  Headers.get headers "MAN" = Some (HStr SSDP_DISCOVER).
Proof.
  unfold man_differs. destruct (Headers.get headers "MAN") as [[s|a]|].
  - rewrite negb_false_iff, String.eqb_eq. split; congruence.
  - split; discriminate.
  - split; discriminate.
Qed.

(** The run of [_async_on_data] on a probe that passes the start-line and
    [MAN] checks and carries a textual [ST]. *)
Lemma run_on_data sent line headers addr st :
  is_discover line headers ->
  Headers.get headers "_remote_addr" = Some addr ->
  Headers.get headers "ST" = Some (HStr st) ->
  _async_on_data line headers (mkResponder root (Some sent))
  = (inr tt,
     mkResponder root
       (Some (sent ++ map (fun p => (p, addr)) (responses_for root (Text.lower st))))).
Proof.
  intros [Hline Hman] Haddr Hst.
  apply man_differs_discover in Hman.
  rewrite (get_key_case headers "ST" "st" eq_refl) in Hst.
  unfold _async_on_data, responses_for.
  rewrite Hline, Hman, String.eqb_refl. cbn [negb orb].
  rewrite (run_bind _ _ _ tt (mkResponder root (Some sent))) by reflexivity.
  unfold getitem. rewrite Haddr, Hst.
  rewrite (run_bind _ _ _ addr (mkResponder root (Some sent))) by reflexivity.
  rewrite (run_bind _ _ _ (HStr st) (mkResponder root (Some sent))) by reflexivity.
  rewrite (run_bind _ _ _ (Text.lower st) (mkResponder root (Some sent))) by reflexivity.
  rewrite (run_bind _ _ _ (mkResponder root (Some sent)) (mkResponder root (Some sent)))
    by reflexivity.
  cbn [device].
  destruct (String.eqb (Text.lower st) SSDP_ST_ALL).
  { rewrite (run_bind _ _ _ _ _ (run_rootdevice sent addr)).
    rewrite (run_bind _ _ _ _ _
               (run_for_each _ (fun d => (device_udn_response root d, addr))
                  (fun x s => run_device_udn s addr x) _ _)).
    rewrite (run_bind _ _ _ _ _
               (run_for_each _ (fun d => (device_type_response root d, addr))
                  (fun x s => run_device_type s addr x) _ _)).
    rewrite (run_for_each _ (fun s => (service_response root s, addr))
               (fun x s => run_service s addr x)).
    rewrite <- !app_assoc. cbn [map app].
    rewrite !map_app, !map_map. reflexivity. }
  destruct (String.eqb (Text.lower st) SSDP_ST_ROOTDEVICE).
  { rewrite run_rootdevice. reflexivity. }
  unfold _matched_devices_by_uuid, _matched_devices_by_type,
    _matched_services_by_type, unconnected. cbn [device].
  destruct (truthy (filter _ (all_devices root))).
  { rewrite (run_for_each _ (fun d => (device_udn_response root d, addr))
               (fun x s => run_device_udn s addr x)).
    rewrite map_map. reflexivity. }
  destruct (truthy (filter _ (all_devices root))).
  { rewrite (run_for_each _ (fun d => (device_type_response root d, addr))
               (fun x s => run_device_type s addr x)).
    rewrite map_map. reflexivity. }
  destruct (truthy (filter _ (all_services root))) eqn:E.
  { rewrite (run_for_each _ (fun s => (service_response root s, addr))
               (fun x s => run_service s addr x)).
    rewrite map_map. reflexivity. }
  destruct (filter _ (all_services root)); [|discriminate E].
  cbn. rewrite app_nil_r. reflexivity.
Qed.

End ResponderRuns.

(** ** Properties of the search responder *)

Lemma connected_eq self sent :
  connected self sent -> self = mkResponder (device self) (Some sent).
Proof. unfold connected. destruct self as [d t]; simpl. intros ->. reflexivity. Qed.

Lemma not_discover_returns self sent line headers :
  connected self sent ->
  ~ is_discover line headers ->
  _async_on_data line headers self = (inr tt, self).
Proof.
  intros Hc Hn. rewrite (connected_eq _ _ Hc). unfold _async_on_data.
  rewrite (run_bind _ _ _ tt (mkResponder (device self) (Some sent))) by reflexivity.
  destruct (String.eqb line "M-SEARCH * HTTP/1.1") eqn:El; [|reflexivity].
  destruct (man_differs headers) eqn:Em; [reflexivity|].
  exfalso. apply Hn. split.
  - now apply String.eqb_eq.
  - now apply man_differs_discover.
Qed.

(** Every run of [_async_on_data] on a connected responder is one of: an
    exception before anything was sent, a silent return, or the sending of
    [responses_for] to the peer address. *)
Lemma on_data_cases self sent line headers :
  connected self sent ->
  (exists e, _async_on_data line headers self = (inl e, self)) \/
  (_async_on_data line headers self = (inr tt, self)) \/
  (exists addr st,
      is_discover line headers /\
      Headers.get headers "_remote_addr" = Some addr /\
      Headers.get headers "ST" = Some (HStr st) /\
      _async_on_data line headers self
      = (inr tt, after self sent
                   (map (fun p => (p, addr)) (responses_for (device self) (Text.lower st))))).
Proof.
  intros Hc.
  destruct (String.eqb line "M-SEARCH * HTTP/1.1") eqn:El.
  2:{ right; left. apply (not_discover_returns _ sent); [assumption|].
      intros [H _]. apply String.eqb_eq in H. congruence. }
  destruct (man_differs headers) eqn:Em.
  { right; left. apply (not_discover_returns _ sent); [assumption|].
    intros [_ H]. apply man_differs_discover in H. congruence. }
  assert (Hd : is_discover line headers).
  { split; [now apply String.eqb_eq | now apply man_differs_discover]. }
  destruct (Headers.get headers "_remote_addr") as [addr|] eqn:Ea.
  2:{ left. exists (KeyError "_remote_addr").
      rewrite (connected_eq _ _ Hc) at 1 2. unfold _async_on_data.
      rewrite (run_bind _ _ _ tt (mkResponder (device self) (Some sent))) by reflexivity.
      rewrite El, Em. cbn [negb orb]. unfold getitem. rewrite Ea. reflexivity. }
  destruct (Headers.get headers "ST") as [[st|a]|] eqn:Es.
  - right; right. exists addr, st. repeat split; try assumption; try apply Hd.
    rewrite (connected_eq _ _ Hc) at 1. now apply run_on_data.
  - left. exists (AttributeError "lower").
    rewrite (get_key_case headers "ST" "st" eq_refl) in Es.
    rewrite (connected_eq _ _ Hc) at 1 2. unfold _async_on_data.
    rewrite (run_bind _ _ _ tt (mkResponder (device self) (Some sent))) by reflexivity.
    rewrite El, Em. cbn [negb orb]. unfold getitem. rewrite Ea, Es. reflexivity.
  - left. exists (KeyError "st").
    rewrite (get_key_case headers "ST" "st" eq_refl) in Es.
    rewrite (connected_eq _ _ Hc) at 1 2. unfold _async_on_data.
    rewrite (run_bind _ _ _ tt (mkResponder (device self) (Some sent))) by reflexivity.
    rewrite El, Em. cbn [negb orb]. unfold getitem. rewrite Ea, Es. reflexivity.
Qed.

Lemma responses_for_all root target :
  target = SSDP_ST_ALL -> responses_for root target = per_kind_order root.
Proof. intros ->. reflexivity. Qed.

Lemma length_per_kind_order root :
  length (per_kind_order root)
  = 1 + 2 * length (all_devices root) + length (all_services root).
Proof.
  unfold per_kind_order. cbn [length].
  rewrite !length_app, !length_map. lia.
Qed.

(** C1: an [M-SEARCH] probe with [MAN] ["ssdp:discover"] whose [ST] is
    [ssdp:all] in any letter case makes the responder hand exactly
    [1 + 2 * |all_devices| + |all_services|] datagrams to the transport, each
    addressed to the probe's remote address. *)
Theorem ssdp_all_datagram_count self sent line headers addr st :
  connected self sent ->
  is_discover line headers ->
  Headers.get headers "_remote_addr" = Some addr ->
  Headers.get headers "ST" = Some (HStr st) ->
  Text.lower st = Text.lower "ssdp:all" ->
  exists new,
    _async_on_data line headers self = (inr tt, after self sent new) /\
    length new
    = 1 + 2 * length (all_devices (device self)) + length (all_services (device self)) /\
    Forall (fun d => snd d = addr) new.
Proof.
  intros Hc Hd Ha Hs Hall.
  exists (to_peer addr (per_kind_order (device self))).
  split; [|split].
  - rewrite (connected_eq _ _ Hc) at 1.
    rewrite (run_on_data _ sent line headers addr st Hd Ha Hs).
    rewrite (responses_for_all _ _ Hall). reflexivity.
  - unfold to_peer. rewrite length_map. apply length_per_kind_order.
  - unfold to_peer. apply Forall_forall. intros d Hin.
    apply in_map_iff in Hin. destruct Hin as [p [<- _]]. reflexivity.
Qed.

Lemma ssdp_all_datagram_count_witness :
  exists new,
    _async_on_data "M-SEARCH * HTTP/1.1" (sample_probe "SSDP:All") sample_responder
    = (inr tt, after sample_responder [] new) /\
    length new = 7 /\
    Forall (fun d => snd d = sample_peer) new.
Proof.
  exact (ssdp_all_datagram_count sample_responder [] "M-SEARCH * HTTP/1.1"
           (sample_probe "SSDP:All") sample_peer "SSDP:All"
           eq_refl (sample_probe_is_discover _) eq_refl eq_refl eq_refl).
Defined.

(** C4, as stated, fails on a tree with two devices: the responder sends
    the UDN responses of both devices before any device-type response, so the
    root's device-type response does not directly follow the root's UDN
    response. *)
Lemma ssdp_all_not_per_device_order :
  _async_on_data "M-SEARCH * HTTP/1.1" (sample_probe "ssdp:all") sample_responder
  <> (inr tt, after sample_responder [] (to_peer sample_peer (per_device_order sample_root))).
Proof. vm_compute. discriminate. Qed.

(** C4, amended: the responses to [ssdp:all] are sent in this order: the
    root-device response; then the UDN response of every device of
    [all_devices], in order; then the device-type response of every device of
    [all_devices], in order; then one service response per service of
    [all_services], in order. *)
Theorem ssdp_all_per_kind_order self sent line headers addr st :
  connected self sent ->
  is_discover line headers ->
  Headers.get headers "_remote_addr" = Some addr ->
  Headers.get headers "ST" = Some (HStr st) ->
  Text.lower st = Text.lower "ssdp:all" ->
  _async_on_data line headers self
  = (inr tt,
     after self sent
       (to_peer addr
          (rootdevice_response (device self)
             :: map (device_udn_response (device self)) (all_devices (device self))
             ++ map (device_type_response (device self)) (all_devices (device self))
             ++ map (service_response (device self)) (all_services (device self))))).
Proof.
  intros Hc Hd Ha Hs Hall.
  rewrite (connected_eq _ _ Hc) at 1.
  rewrite (run_on_data _ sent line headers addr st Hd Ha Hs).
  rewrite (responses_for_all _ _ Hall). reflexivity.
Qed.

Lemma ssdp_all_per_kind_order_witness :
  sent_st_usn
    (_async_on_data "M-SEARCH * HTTP/1.1" (sample_probe "ssdp:ALL") sample_responder)
  = map st_usn (to_peer sample_peer (per_kind_order sample_root)).
Proof.
  rewrite (ssdp_all_per_kind_order sample_responder [] "M-SEARCH * HTTP/1.1"
             (sample_probe "ssdp:ALL") sample_peer "ssdp:ALL"
             eq_refl (sample_probe_is_discover _) eq_refl eq_refl eq_refl).
  reflexivity.
Defined.

(** With no embedded device the two orders coincide. *)
Lemma single_device_orders_agree root :
  embedded_devices root = [] -> per_kind_order root = per_device_order root.
Proof.
  intros E. unfold per_kind_order, per_device_order.
  destruct root as [u t b url svcs emb]; simpl in E; subst emb. reflexivity.
Qed.

Lemma responses_for_names_root root target :
  Forall (usn_names_root root) (responses_for root target).
Proof.
  assert (Hr : usn_names_root root (rootdevice_response root)).
  { eexists; split; [reflexivity|]. right. exists "upnp:rootdevice". reflexivity. }
  assert (Hu : forall l, Forall (usn_names_root root) (map (device_udn_response root) l)).
  { intros l. apply Forall_forall. intros p Hin. apply in_map_iff in Hin.
    destruct Hin as [d [<- _]]. eexists; split; [reflexivity|]. now left. }
  assert (Ht : forall l, Forall (usn_names_root root) (map (device_type_response root) l)).
  { intros l. apply Forall_forall. intros p Hin. apply in_map_iff in Hin.
    destruct Hin as [d [<- _]]. eexists; split; [reflexivity|].
    right. exists (device_type d). reflexivity. }
  assert (Hs : forall l, Forall (usn_names_root root) (map (service_response root) l)).
  { intros l. apply Forall_forall. intros p Hin. apply in_map_iff in Hin.
    destruct Hin as [s [<- _]]. eexists; split; [reflexivity|].
    right. exists (service_type s). reflexivity. }
  unfold responses_for.
  destruct (String.eqb target SSDP_ST_ALL).
  { constructor; [exact Hr|]. rewrite !Forall_app. auto. }
  destruct (String.eqb target SSDP_ST_ROOTDEVICE).
  { constructor; [exact Hr|constructor]. }
  destruct (truthy _); [apply Hu|].
  destruct (truthy _); [apply Ht|apply Hs].
Qed.

(** C7: whatever the inbound datagram, every datagram the responder hands to
    the transport while handling it carries a [USN] that is the root
    device's UDN or starts with that UDN followed by [::]. *)
Theorem search_response_usn_names_root self sent line headers result self' :
  connected self sent ->
  _async_on_data line headers self = (result, self') ->
  exists new,
    _transport self' = Some (sent ++ new) /\
    Forall (fun d => usn_names_root (device self) (fst d)) new.
Proof.
  intros Hc Hrun.
  destruct (on_data_cases self sent line headers Hc)
    as [[e He] | [He | [addr [st [_ [_ [_ He]]]]]]];
    rewrite He in Hrun; inversion Hrun; subst.
  - exists []. rewrite app_nil_r. split; [exact Hc|constructor].
  - exists []. rewrite app_nil_r. split; [exact Hc|constructor].
  - eexists. split; [reflexivity|].
    apply Forall_forall. intros d Hin. apply in_map_iff in Hin.
    destruct Hin as [p [<- Hp]]. simpl.
    exact (proj1 (Forall_forall _ _) (responses_for_names_root _ _) p Hp).
Qed.

Lemma search_response_usn_names_root_witness :
  exists new,
    _transport
      (snd (_async_on_data "M-SEARCH * HTTP/1.1" (sample_probe "uuid:CHILD") sample_responder))
    = Some ([] ++ new) /\
    Forall (fun d => usn_names_root sample_root (fst d)) new.
Proof.
  exact (search_response_usn_names_root sample_responder [] "M-SEARCH * HTTP/1.1"
           (sample_probe "uuid:CHILD") _ _ eq_refl (surjective_pairing _)).
Defined.

(** Runs the start of [_async_on_data] up to the header look-ups, for a
    connected responder and a probe that passes the two checks. *)
Ltac enter_on_data Hc Hd :=
  let Hline := fresh "Hline" in
  let Hman := fresh "Hman" in
  destruct Hd as [Hline Hman];
  apply man_differs_discover in Hman;
  rewrite (connected_eq _ _ Hc) at 1;
  unfold _async_on_data;
  rewrite (run_bind _ _ _ tt (mkResponder _ (Some _))) by reflexivity;
  rewrite Hline, Hman, String.eqb_refl; cbn [negb orb];
  unfold getitem.

(** C10: a probe that passes the start-line and [MAN] checks but has no
    [ST] header makes [_async_on_data] raise a [KeyError] and leaves the
    transport as it was (nothing is sent); the key is [st] whenever the
    remote address is present.  With an [ST] header present the run never
    raises [KeyError] for [st]. *)
Theorem missing_st_raises_keyerror self sent line headers :
  connected self sent ->
  is_discover line headers ->
  (Headers.get headers "ST" = None ->
   exists key,
     _async_on_data line headers self = (inl (KeyError key), self) /\
     (Headers.get headers "_remote_addr" <> None -> key = "st")) /\
  (forall v, Headers.get headers "ST" = Some v ->
             fst (_async_on_data line headers self) <> inl (KeyError "st")).
Proof.
  intros Hc Hd. split.
  - intros Hst. rewrite (get_key_case headers "ST" "st" eq_refl) in Hst.
    destruct (Headers.get headers "_remote_addr") as [addr|] eqn:Ea.
    + exists "st". split; [|reflexivity].
      enter_on_data Hc Hd. rewrite Ea, Hst.
      rewrite <- (connected_eq _ _ Hc). reflexivity.
    + exists "_remote_addr". split; [|intros H; now elim H].
      enter_on_data Hc Hd. rewrite Ea.
      rewrite <- (connected_eq _ _ Hc). reflexivity.
  - intros v Hv.
    destruct (Headers.get headers "_remote_addr") as [addr|] eqn:Ea.
    + destruct v as [st|a].
      * rewrite (connected_eq _ _ Hc).
        rewrite (run_on_data _ sent line headers addr st Hd Ea Hv). discriminate.
      * rewrite (get_key_case headers "ST" "st" eq_refl) in Hv.
        enter_on_data Hc Hd. rewrite Ea, Hv. discriminate.
    + enter_on_data Hc Hd. rewrite Ea. discriminate.
Qed.

Lemma missing_st_raises_keyerror_witness :
  exists key,
    _async_on_data "M-SEARCH * HTTP/1.1" sample_probe_no_st sample_responder
    = (inl (KeyError key), sample_responder) /\
    (Headers.get sample_probe_no_st "_remote_addr" <> None -> key = "st").
Proof.
  exact (proj1 (missing_st_raises_keyerror sample_responder [] "M-SEARCH * HTTP/1.1"
                  sample_probe_no_st eq_refl (conj eq_refl eq_refl)) eq_refl).
Defined.

Example missing_st_on_sample :
  _async_on_data "M-SEARCH * HTTP/1.1" sample_probe_no_st sample_responder
  = (inl (KeyError "st"), sample_responder).
Proof. reflexivity. Qed.

(** *** Matching of the search target *)

Section Matching.

Variable root : UpnpDevice.
Variable target : string.

Lemma truthy_In {X} (l : list X) (x : X) : In x l -> truthy l = true.
Proof. destruct l; [intros []|reflexivity]. Qed.

Lemma filter_none {X} (f : X -> bool) (l : list X) :
  (forall x, In x l -> f x = false) -> filter f l = [].
Proof.
  induction l as [|x r IH]; intros H; simpl; [reflexivity|].
  rewrite (H x (or_introl eq_refl)). apply IH. intros y Hy. apply H. now right.
Qed.

Lemma responses_for_rootdevice :
  target = SSDP_ST_ROOTDEVICE ->
  responses_for root target = [rootdevice_response root].
Proof. intros ->. reflexivity. Qed.

Hypothesis not_all : target <> SSDP_ST_ALL.
Hypothesis not_rootdevice : target <> SSDP_ST_ROOTDEVICE.

Lemma responses_for_targeted :
  responses_for root target
  = if truthy (_matched_devices_by_uuid (unconnected root) target) then
      map (device_udn_response root) (_matched_devices_by_uuid (unconnected root) target)
    else if truthy (_matched_devices_by_type (unconnected root) target) then
      map (device_type_response root) (_matched_devices_by_type (unconnected root) target)
    else map (service_response root) (_matched_services_by_type (unconnected root) target).
Proof.
  unfold responses_for.
  apply String.eqb_neq in not_all. apply String.eqb_neq in not_rootdevice.
  rewrite not_all, not_rootdevice. reflexivity.
Qed.

Lemma responses_for_udn dev :
  In dev (all_devices root) ->
  Text.lower (udn dev) = target ->
  In (device_udn_response root dev) (responses_for root target).
Proof.
  intros Hin Hm. rewrite responses_for_targeted.
  assert (Hf : In dev (_matched_devices_by_uuid (unconnected root) target)).
  { apply filter_In. split; [exact Hin|]. now apply String.eqb_eq. }
  rewrite (truthy_In _ _ Hf). now apply in_map.
Qed.

Hypothesis no_udn :
  forall dev, In dev (all_devices root) -> Text.lower (udn dev) <> target.

Lemma no_udn_match : _matched_devices_by_uuid (unconnected root) target = [].
Proof.
  apply filter_none. intros dev Hin. apply String.eqb_neq. now apply no_udn.
Qed.

Lemma responses_for_type dev :
  In dev (all_devices root) ->
  Text.lower (device_type dev) = target ->
  In (device_type_response root dev) (responses_for root target).
Proof.
  intros Hin Hm. rewrite responses_for_targeted, no_udn_match. cbn [truthy].
  assert (Hf : In dev (_matched_devices_by_type (unconnected root) target)).
  { apply filter_In. split; [exact Hin|]. now apply String.eqb_eq. }
  rewrite (truthy_In _ _ Hf). now apply in_map.
Qed.

Hypothesis no_type :
  forall dev, In dev (all_devices root) -> Text.lower (device_type dev) <> target.

Lemma no_type_match : _matched_devices_by_type (unconnected root) target = [].
Proof.
  apply filter_none. intros dev Hin. apply String.eqb_neq. now apply no_type.
Qed.

Lemma responses_for_service service :
  In service (all_services root) ->
  Text.lower (service_type service) = target ->
  In (service_response root service) (responses_for root target).
Proof.
  intros Hin Hm. rewrite responses_for_targeted, no_udn_match, no_type_match.
  cbn [truthy]. apply in_map. apply filter_In. split; [exact Hin|].
  now apply String.eqb_eq.
Qed.

Lemma responses_for_nothing :
  (forall service, In service (all_services root) ->
                   Text.lower (service_type service) <> target) ->
  responses_for root target = [].
Proof.
  intros no_service.
  rewrite responses_for_targeted, no_udn_match, no_type_match. cbn [truthy].
  unfold _matched_services_by_type. rewrite filter_none; [reflexivity|].
  intros s Hin. apply String.eqb_neq. now apply no_service.
Qed.

End Matching.

Lemma responses_for_canonical root target :
  Forall (st_is_canonical root target) (responses_for root target).
Proof.
  assert (Hr : target = SSDP_ST_ALL \/ target = SSDP_ST_ROOTDEVICE ->
               st_is_canonical root target (rootdevice_response root)).
  { intros H. exists "upnp:rootdevice". split; [reflexivity|]. split; [now left|].
    intros Hn. destruct H as [H|H]; [contradiction|]. now rewrite H. }
  assert (Hu : forall l, (forall d, In d l -> In d (all_devices root) /\
                                     (target <> SSDP_ST_ALL -> Text.lower (udn d) = target)) ->
                         Forall (st_is_canonical root target) (map (device_udn_response root) l)).
  { intros l Hl. apply Forall_forall. intros p Hin. apply in_map_iff in Hin.
    destruct Hin as [d [<- Hd]]. destruct (Hl d Hd) as [Hin Hm].
    exists (udn d). split; [reflexivity|]. split; [|exact Hm].
    right. apply in_or_app. left. now apply in_map. }
  assert (Ht : forall l, (forall d, In d l -> In d (all_devices root) /\
                                     (target <> SSDP_ST_ALL -> Text.lower (device_type d) = target)) ->
                         Forall (st_is_canonical root target) (map (device_type_response root) l)).
  { intros l Hl. apply Forall_forall. intros p Hin. apply in_map_iff in Hin.
    destruct Hin as [d [<- Hd]]. destruct (Hl d Hd) as [Hin Hm].
    exists (device_type d). split; [reflexivity|]. split; [|exact Hm].
    right. apply in_or_app. right. apply in_or_app. left. now apply in_map. }
  assert (Hs : forall l, (forall s, In s l -> In s (all_services root) /\
                                     (target <> SSDP_ST_ALL -> Text.lower (service_type s) = target)) ->
                         Forall (st_is_canonical root target) (map (service_response root) l)).
  { intros l Hl. apply Forall_forall. intros p Hin. apply in_map_iff in Hin.
    destruct Hin as [s [<- Hd]]. destruct (Hl s Hd) as [Hin Hm].
    exists (service_type s). split; [reflexivity|]. split; [|exact Hm].
    right. apply in_or_app. right. apply in_or_app. right. now apply in_map. }
  unfold responses_for.
  destruct (String.eqb target SSDP_ST_ALL) eqn:Ea.
  { apply String.eqb_eq in Ea.
    constructor; [apply Hr; now left|]. rewrite !Forall_app. repeat split.
    - apply Hu. intros d Hd. split; [exact Hd|]. intros Hn. contradiction.
    - apply Ht. intros d Hd. split; [exact Hd|]. intros Hn. contradiction.
    - apply Hs. intros d Hd. split; [exact Hd|]. intros Hn. contradiction. }
  destruct (String.eqb target SSDP_ST_ROOTDEVICE) eqn:Er.
  { apply String.eqb_eq in Er. constructor; [apply Hr; now right|constructor]. }
  destruct (truthy _).
  { apply Hu. intros d Hd. apply filter_In in Hd. destruct Hd as [Hin Hm].
    split; [exact Hin|]. intros _. now apply String.eqb_eq. }
  destruct (truthy _).
  { apply Ht. intros d Hd. apply filter_In in Hd. destruct Hd as [Hin Hm].
    split; [exact Hin|]. intros _. now apply String.eqb_eq. }
  apply Hs. intros d Hd. apply filter_In in Hd. destruct Hd as [Hin Hm].
  split; [exact Hin|]. intros _. now apply String.eqb_eq.
Qed.

(** C9: the responder sends only for the start line [M-SEARCH * HTTP/1.1]
    with [MAN] equal to the quoted ["ssdp:discover"]; what it sends depends on
    the [ST] only up to letter case, each kind of target ([ssdp:all],
    [upnp:rootdevice], a UDN, a device type, a service type) is matched up to
    letter case, every response carries in [ST] the value stored in the
    model, and a target that matches nothing gets no response. *)
Theorem search_matching_case_insensitive self sent line headers :
  connected self sent ->
  (~ is_discover line headers -> _async_on_data line headers self = (inr tt, self)) /\
  (forall addr st,
      is_discover line headers ->
      Headers.get headers "_remote_addr" = Some addr ->
      Headers.get headers "ST" = Some (HStr st) ->
      exists packets,
        _async_on_data line headers self = (inr tt, after self sent (to_peer addr packets)) /\
        (forall headers' st',
            is_discover line headers' ->
            Headers.get headers' "_remote_addr" = Some addr ->
            Headers.get headers' "ST" = Some (HStr st') ->
            Text.lower st' = Text.lower st ->
            _async_on_data line headers' self
            = (inr tt, after self sent (to_peer addr packets))) /\
        (Text.lower st = Text.lower "ssdp:all" ->
         packets = per_kind_order (device self)) /\
        (Text.lower st = Text.lower "upnp:rootdevice" ->
         packets = [rootdevice_response (device self)]) /\
        (Text.lower st <> SSDP_ST_ALL -> Text.lower st <> SSDP_ST_ROOTDEVICE ->
         (forall dev, In dev (all_devices (device self)) ->
                      Text.lower (udn dev) = Text.lower st ->
                      In (device_udn_response (device self) dev) packets) /\
         ((forall dev, In dev (all_devices (device self)) ->
                       Text.lower (udn dev) <> Text.lower st) ->
          (forall dev, In dev (all_devices (device self)) ->
                       Text.lower (device_type dev) = Text.lower st ->
                       In (device_type_response (device self) dev) packets) /\
          ((forall dev, In dev (all_devices (device self)) ->
                        Text.lower (device_type dev) <> Text.lower st) ->
           (forall service, In service (all_services (device self)) ->
                            Text.lower (service_type service) = Text.lower st ->
                            In (service_response (device self) service) packets) /\
           ((forall service, In service (all_services (device self)) ->
                             Text.lower (service_type service) <> Text.lower st) ->
            packets = [])))) /\
        Forall (st_is_canonical (device self) (Text.lower st)) packets).
Proof.
  intros Hc. split.
  { intros Hn. now apply (not_discover_returns _ sent). }
  intros addr st Hd Ha Hs.
  exists (responses_for (device self) (Text.lower st)).
  split; [|split; [|split; [|split; [|split]]]].
  - rewrite (connected_eq _ _ Hc) at 1. now apply run_on_data.
  - intros headers' st' Hd' Ha' Hs' Hcase.
    rewrite (connected_eq _ _ Hc) at 1.
    rewrite (run_on_data _ sent line headers' addr st' Hd' Ha' Hs'), Hcase. reflexivity.
  - intros H. now apply responses_for_all.
  - intros H. now apply responses_for_rootdevice.
  - intros Hna Hnr. split.
    { intros dev Hin Hm. now apply responses_for_udn. }
    intros Hnu. split.
    { intros dev Hin Hm. now apply responses_for_type. }
    intros Hnt. split.
    { intros service Hin Hm. now apply responses_for_service. }
    intros Hns. now apply responses_for_nothing.
  - apply responses_for_canonical.
Qed.

Lemma search_matching_case_insensitive_witness :
  (~ is_discover "NOTIFY * HTTP/1.1" (sample_probe "ssdp:all") ->
   _async_on_data "NOTIFY * HTTP/1.1" (sample_probe "ssdp:all") sample_responder
   = (inr tt, sample_responder)) /\
  exists packets,
    _async_on_data "M-SEARCH * HTTP/1.1"
      (sample_probe "URN:Schemas-UPnP-Org:Device:Embedded:1") sample_responder
    = (inr tt, after sample_responder [] (to_peer sample_peer packets)) /\
    Forall (st_is_canonical sample_root
              (Text.lower "URN:Schemas-UPnP-Org:Device:Embedded:1")) packets.
Proof.
  split.
  - exact (proj1 (search_matching_case_insensitive sample_responder []
                    "NOTIFY * HTTP/1.1" (sample_probe "ssdp:all") eq_refl)).
  - destruct (proj2 (search_matching_case_insensitive sample_responder []
                       "M-SEARCH * HTTP/1.1"
                       (sample_probe "URN:Schemas-UPnP-Org:Device:Embedded:1") eq_refl)
                sample_peer "URN:Schemas-UPnP-Org:Device:Embedded:1"
                (sample_probe_is_discover _) eq_refl eq_refl)
      as [packets [Hrun [_ [_ [_ [_ Hcanon]]]]]].
    exists packets. split; assumption.
Defined.

Example mixed_case_type_probe :
  sent_st_usn
    (_async_on_data "M-SEARCH * HTTP/1.1"
       (sample_probe "URN:Schemas-UPnP-Org:Device:Embedded:1") sample_responder)
  = [ (Some "urn:schemas-upnp-org:device:Embedded:1",
       Some "uuid:root::urn:schemas-upnp-org:device:Embedded:1") ].
Proof. reflexivity. Qed.

Example unknown_target_probe :
  _async_on_data "M-SEARCH * HTTP/1.1" (sample_probe "urn:nothing:here") sample_responder
  = (inr tt, sample_responder).
Proof. reflexivity. Qed.

Example unquoted_man_probe :
  _async_on_data "M-SEARCH * HTTP/1.1"
    [("MAN", HStr "ssdp:discover"); ("ST", HStr "ssdp:all"); ("_remote_addr", sample_peer)]
    sample_responder
  = (inr tt, sample_responder).
Proof. reflexivity. Qed.

(** C2, at an embedded device: a probe for the UDN of the embedded device is
    answered by one datagram whose [ST] is that device's UDN and whose [USN]
    is the root device's UDN, not the matched device's own. *)
Theorem udn_response_usn_is_root_udn :
  sent_st_usn
    (_async_on_data "M-SEARCH * HTTP/1.1" (sample_probe "uuid:child") sample_responder)
  = [ (Some (udn sample_child), Some (udn sample_root)) ] /\
  udn sample_root <> udn sample_child.
Proof. split; [reflexivity|discriminate]. Qed.

(** ** The advertisement announcer *)

Lemma fold_left_snoc_two {X Y} (f g : X -> Y) (xs : list X) (acc : list Y) :
  fold_left (fun ads x => (ads ++ [f x]) ++ [g x]) xs acc
  = acc ++ flat_map (fun x => [f x; g x]) xs.
Proof.
  revert acc. induction xs as [|x r IH]; intros acc; simpl.
  - now rewrite app_nil_r.
  - rewrite IH, <- !app_assoc. reflexivity.
Qed.

Lemma fold_left_snoc {X Y} (f : X -> Y) (xs : list X) (acc : list Y) :
  fold_left (fun ads x => ads ++ [f x]) xs acc = acc ++ map f xs.
Proof.
  revert acc. induction xs as [|x r IH]; intros acc; simpl.
  - now rewrite app_nil_r.
  - rewrite IH, <- app_assoc. reflexivity.
Qed.

Lemma build_advertisements_slots root :
  _build_advertisements root
  = rootdevice_advertisement root
      :: flat_map (fun dev => [device_udn_advertisement root dev;
                               device_type_advertisement root dev])
                  (all_devices root)
      ++ map (service_advertisement root) (all_services root).
Proof.
  unfold _build_advertisements.
  rewrite fold_left_snoc, fold_left_snoc_two. reflexivity.
Qed.

Lemma length_flat_map_two {X Y} (f g : X -> Y) (xs : list X) :
  length (flat_map (fun x => [f x; g x]) xs) = 2 * length xs.
Proof. induction xs as [|x r IH]; simpl; [reflexivity|]. rewrite IH. lia. Qed.

Lemma length_build_advertisements root :
  length (_build_advertisements root)
  = 1 + 2 * length (all_devices root) + length (all_services root).
Proof.
  rewrite build_advertisements_slots. cbn [length].
  rewrite length_app, length_flat_map_two, length_map. lia.
Qed.

(** Every advertisement has the three headers read for the log. *)
Lemma build_advertisements_keys root headers :
  In headers (_build_advertisements root) ->
  Announcer.has_key headers "NTS" = true /\
  Announcer.has_key headers "NT" = true /\
  Announcer.has_key headers "USN" = true.
Proof.
  rewrite build_advertisements_slots. intros [<-|Hin].
  { repeat split; reflexivity. }
  apply in_app_or in Hin. destruct Hin as [Hin|Hin].
  - apply in_flat_map in Hin. destruct Hin as [d [_ [<-|[<-|[]]]]];
      repeat split; reflexivity.
  - apply in_map_iff in Hin. destruct Hin as [s [<- _]]. repeat split; reflexivity.
Qed.

Lemma seq_from_zero s len : seq s len = map (fun j => s + j) (seq 0 len).
Proof.
  revert s. induction len as [|m IH]; intros s; simpl; [reflexivity|].
  rewrite Nat.add_0_r. f_equal.
  rewrite (IH (S s)), (IH 1), map_map. apply map_ext. intros j. lia.
Qed.

Section Cursor.

Variable n : nat.
Hypothesis n_pos : 0 < n.

Lemma window_mod_injective k j1 j2 :
  k <= j1 < k + n -> k <= j2 < k + n -> j1 mod n = j2 mod n -> j1 = j2.
Proof.
  intros H1 H2 E.
  pose proof (Nat.div_mod_eq j1 n) as D1.
  pose proof (Nat.div_mod_eq j2 n) as D2.
  rewrite E in D1.
  assert (j1 / n = j2 / n) by nia.
  congruence.
Qed.

Lemma window_mod_NoDup k : NoDup (map (fun j => j mod n) (seq k n)).
Proof.
  apply NoDup_map_NoDup_ForallPairs; [|apply seq_NoDup].
  intros j1 j2 H1 H2 E. apply in_seq in H1, H2.
  now apply (window_mod_injective k).
Qed.

(** Any [n] consecutive ticks visit every slot exactly once. *)
Lemma window_mod_permutation k :
  Permutation (map (fun j => j mod n) (seq k n)) (seq 0 n).
Proof.
  apply NoDup_Permutation_bis.
  - apply window_mod_NoDup.
  - rewrite length_map, !length_seq. lia.
  - intros x Hx. apply in_map_iff in Hx. destruct Hx as [j [<- _]].
    apply in_seq. split; [lia|]. simpl. apply Nat.mod_upper_bound. lia.
Qed.

(** Starting at a multiple of [n], they are visited in insertion order. *)
Lemma window_mod_in_order c :
  map (fun j => j mod n) (seq (c * n) n) = seq 0 n.
Proof.
  rewrite (seq_from_zero (c * n) n), map_map.
  rewrite <- (map_id (seq 0 n)) at 2.
  apply map_ext_in. intros j Hj. apply in_seq in Hj.
  rewrite Nat.add_comm, Nat.Div0.mod_add. apply Nat.mod_small. lia.
Qed.

End Cursor.

Lemma build_advertisements_alive root :
  Forall (fun headers => Headers.get headers "NTS" = Some (HStr "ssdp:alive"))
         (_build_advertisements root).
Proof.
  rewrite build_advertisements_slots. constructor; [reflexivity|].
  apply Forall_app. split; apply Forall_forall; intros h Hin.
  - apply in_flat_map in Hin. destruct Hin as [d [_ [<-|[<-|[]]]]]; reflexivity.
  - apply in_map_iff in Hin. destruct Hin as [s [<- _]]. reflexivity.
Qed.

(** One tick of a connected announcer whose cursor is inside the list built
    by [_build_advertisements]. *)
Lemma announce_next_run root tgt sent i :
  i < length (_build_advertisements root) ->
  Announcer._announce_next
    (Announcer.mkAnnouncer root tgt (Some sent) (_build_advertisements root) i)
  = inr (Announcer.mkAnnouncer root tgt
           (Some (sent ++ [("NOTIFY * HTTP/1.1", nth i (_build_advertisements root) [], tgt)]))
           (_build_advertisements root)
           ((i + 1) mod length (_build_advertisements root))).
Proof.
  intros Hi. unfold Announcer._announce_next.
  cbn [Announcer._transport Announcer._advertisements Announcer._advertisement_index
       Announcer.device Announcer.target].
  destruct (nth_error (_build_advertisements root) i) as [headers|] eqn:E.
  2:{ apply nth_error_None in E. lia. }
  pose proof (nth_error_In _ _ E) as Hin.
  destruct (build_advertisements_keys root headers Hin) as [H1 [H2 H3]].
  rewrite H1, H2, H3. cbn [negb].
  assert (Hn : nth i (_build_advertisements root) [] = headers)
    by (apply nth_error_nth; exact E).
  rewrite Hn. reflexivity.
Qed.

Lemma ticks_run root tgt sent k :
  Announcer.ticks k (Announcer._async_on_connect (Announcer.init root tgt) sent)
  = inr (Announcer.mkAnnouncer root tgt
           (Some (sent ++ map (fun j => ("NOTIFY * HTTP/1.1",
                                         nth (j mod length (_build_advertisements root))
                                             (_build_advertisements root) [],
                                         tgt))
                              (seq 0 k)))
           (_build_advertisements root)
           (k mod length (_build_advertisements root))).
Proof.
  assert (Hpos : 0 < length (_build_advertisements root)).
  { rewrite length_build_advertisements. lia. }
  induction k as [|k IH].
  - cbn [Announcer.ticks seq map]. rewrite app_nil_r, Nat.Div0.mod_0_l. reflexivity.
  - cbn [Announcer.ticks]. rewrite IH.
    rewrite announce_next_run by (apply Nat.mod_upper_bound; lia).
    rewrite seq_S, map_app, <- app_assoc. cbn [map Nat.add].
    rewrite Nat.Div0.add_mod_idemp_l. replace (k + 1) with (S k) by lia.
    reflexivity.
Qed.

(** C8: the announcer's list, built once by [_build_advertisements], has
    exactly [1 + 2 * |all_devices| + |all_services|] alive entries: the root
    slot, then a UDN slot and a device-type slot per device, then a slot per
    service.  The list is never changed by a tick; after [k] ticks the cursor
    is [k mod |advertisements|] and tick [j] sent slot [j mod |advertisements|]
    to the target, so any [|advertisements|] consecutive ticks visit every slot
    exactly once, and from the start (or any multiple of the length) they do so
    in insertion order. *)
Theorem announcer_round_robin root tgt sent :
  let ads := _build_advertisements root in
  let n := length ads in
  let start := Announcer._async_on_connect (Announcer.init root tgt) sent in
  n = 1 + 2 * length (all_devices root) + length (all_services root) /\
  ads = rootdevice_advertisement root
          :: flat_map (fun dev => [device_udn_advertisement root dev;
                                   device_type_advertisement root dev])
                      (all_devices root)
          ++ map (service_advertisement root) (all_services root) /\
  Forall (fun headers => Headers.get headers "NTS" = Some (HStr "ssdp:alive")) ads /\
  (forall k, exists self,
      Announcer.ticks k start = inr self /\
      Announcer._advertisements self = ads /\
      Announcer._advertisement_index self = k mod n /\
      Announcer._transport self
      = Some (sent ++ map (fun j => ("NOTIFY * HTTP/1.1", Announcer.slot start (j mod n), tgt))
                          (seq 0 k))) /\
  (forall self, Announcer._advertisements self = ads ->
                Announcer._advertisement_index self < n ->
                Announcer._transport self <> None ->
                exists self',
                  Announcer._announce_next self = inr self' /\
                  Announcer._advertisements self' = ads /\
                  Announcer._advertisement_index self'
                  = (Announcer._advertisement_index self + 1) mod n) /\
  (forall k, Permutation (map (fun j => j mod n) (seq k n)) (seq 0 n)) /\
  (forall c, map (fun j => j mod n) (seq (c * n) n) = seq 0 n).
Proof.
  assert (Hpos : 0 < length (_build_advertisements root)).
  { rewrite length_build_advertisements. lia. }
  cbv zeta. repeat split.
  - apply length_build_advertisements.
  - apply build_advertisements_slots.
  - apply build_advertisements_alive.
  - intros k. eexists. split; [apply ticks_run|]. repeat split.
  - intros [dev tg tr ads i]. cbn. intros -> Hi Htr.
    destruct tr as [log|]; [|congruence].
    unfold Announcer._announce_next. cbn.
    destruct (nth_error (_build_advertisements root) i) as [headers|] eqn:E.
    2:{ apply nth_error_None in E. lia. }
    destruct (build_advertisements_keys root headers (nth_error_In _ _ E)) as [H1 [H2 H3]].
    rewrite H1, H2, H3. cbn. eexists. repeat split.
  - intros k. now apply window_mod_permutation.
  - intros c. now apply window_mod_in_order.
Qed.

Example sample_announcer_cycle :
  match Announcer.ticks 8 sample_announcer with
  | inr self =>
      (Announcer._advertisement_index self,
       match Announcer._transport self with
       | Some sent => map (fun d => Headers.get (snd (fst d)) "NT") sent
       | None => []
       end)
  | inl _ => (0, [])
  end
  = (1,
     [ Some (HStr "upnp:rootdevice");
       Some (HStr "uuid:root");
       Some (HStr "urn:schemas-upnp-org:device:Dummy:1");
       Some (HStr "uuid:child");
       Some (HStr "urn:schemas-upnp-org:device:Embedded:1");
       Some (HStr "urn:schemas-upnp-org:service:DummySvc:1");
       Some (HStr "urn:schemas-upnp-org:service:Inner:1");
       Some (HStr "upnp:rootdevice") ]).
Proof. reflexivity. Qed.

(** ** The SOAP action dispatcher *)

Example sample_set_target_call :
  action_handler sample_server_service
    (sample_request "SetTarget" [leaf "NewTargetValue" "1"; leaf "NewLevel" "20"])
  = (inr (_create_action_response sample_server_service "SetTarget" []),
     [("SetTarget", [("NewTargetValue", PyBool true); ("NewLevel", PyInt 20)])]).
Proof. reflexivity. Qed.

Example sample_unknown_action :
  action_handler sample_server_service (sample_request "UnknownAction" [])
  = (inl (HTTPBadRequest "InvalidAction"), []).
Proof. reflexivity. Qed.

Example sample_refuse_call :
  option_map fault_error_code
    (match fst (action_handler sample_server_service (sample_request "Refuse" [])) with
     | inr r => Some r
     | inl _ => None
     end)
  = Some (Some "718").
Proof. reflexivity. Qed.

Lemma str_of_int_codes :
  Text.str_of_int 501 = "501" /\ Text.str_of_int 402 = "402".
Proof. split; reflexivity. Qed.

Lemma error_response_shape exception :
  status (_create_error_action_response exception) = 500%Z /\
  is_soap_fault (_create_error_action_response exception) = true /\
  fault_error_code (_create_error_action_response exception)
  = Some (Text.str_of_int (fault_code exception)).
Proof. repeat split. Qed.

(** C3: every fault response built by [_create_error_action_response] has
    HTTP status 500, and its [errorCode] is: the carried code for a
    [UpnpActionError] with a non-zero [error_code]; 501 for a
    [UpnpActionError] whose [error_code] is 0 or unset; 402 for a
    [UpnpValueError]; 501 for anything else. *)
Theorem fault_error_code_policy exception :
  status (_create_error_action_response exception) = 500%Z /\
  fault_error_code (_create_error_action_response exception)
  = Some (Text.str_of_int (fault_code exception)) /\
  (forall code, exception = UpnpActionError (Some code) -> code <> 0%Z ->
                fault_code exception = code) /\
  (exception = UpnpActionError (Some 0%Z) \/ exception = UpnpActionError None ->
   fault_code exception = 501%Z) /\
  (exception = UpnpValueError -> fault_code exception = 402%Z) /\
  ((forall code, exception <> UpnpActionError code) -> exception <> UpnpValueError ->
   fault_code exception = 501%Z).
Proof.
  repeat split.
  - intros code -> Hnz. cbn. destruct (Z.eqb_spec code 0); [contradiction|reflexivity].
  - intros [-> | ->]; reflexivity.
  - intros ->. reflexivity.
  - intros Ha Hv. destruct exception; try reflexivity.
    + now elim (Ha error_code).
    + now elim Hv.
Qed.

Example fault_codes_on_samples :
  map (fun e => fault_error_code (_create_error_action_response e))
      [ UpnpActionError (Some 718%Z); UpnpActionError (Some 0%Z); UpnpActionError None;
        UpnpValueError; UpnpError; OtherError "RuntimeError" ]
  = [ Some "718"; Some "501"; Some "501"; Some "402"; Some "501"; Some "501" ].
Proof. reflexivity. Qed.

(** C5, as stated, fails: an exception of another kind raised by the bound
    handler leaves [action_handler] as that exception, and an action error
    with a code is surfaced with that code rather than 501. *)
Lemma handler_exception_not_always_fault_501 :
  action_handler sample_server_service (sample_request "Crash" [])
  = (inl (OtherError "RuntimeError"), [("Crash", [])]) /\
  (exists r,
      action_handler sample_server_service (sample_request "Refuse" [])
      = (inr r, [("Refuse", [])]) /\
      fault_error_code r = Some "718").
Proof.
  split; [reflexivity|]. eexists. split; reflexivity.
Qed.

(** C5, amended: when the call of the action raises, [action_handler]
    answers with a SOAP fault (status 500) only for the two kinds it catches:
    a [UpnpActionError] gives the carried [error_code], or 501 when it is
    unset or 0, and a [UpnpValueError] gives 402.  Any other exception is
    not caught and leaves [action_handler] unchanged. *)
Theorem handler_exception_surfacing service request name kwargs exc calls :
  _parse_action_body service request = inr (name, kwargs) ->
  async_handle_action service name kwargs = (inl exc, calls) ->
  match exc with
  | UpnpActionError code =>
      exists r,
        action_handler service request = (inr r, calls) /\
        status r = 500%Z /\ is_soap_fault r = true /\
        fault_error_code r = Some (Text.str_of_int (or_default code 501))
  | UpnpValueError =>
      exists r,
        action_handler service request = (inr r, calls) /\
        status r = 500%Z /\ is_soap_fault r = true /\
        fault_error_code r = Some "402"
  | _ => action_handler service request = (inl exc, calls)
  end.
Proof.
  intros Hparse Hcall. unfold action_handler. rewrite Hparse, Hcall.
  destruct exc; try reflexivity.
  - eexists. split; [reflexivity|]. repeat split.
  - eexists. split; [reflexivity|]. repeat split.
Qed.

Lemma handler_exception_surfacing_witness :
  exists r,
    action_handler sample_server_service (sample_request "Refuse" [])
    = (inr r, [("Refuse", [])]) /\
    status r = 500%Z /\ is_soap_fault r = true /\
    fault_error_code r = Some (Text.str_of_int (or_default (Some 718%Z) 501)).
Proof.
  exact (handler_exception_surfacing sample_server_service (sample_request "Refuse" [])
           "Refuse" [] (UpnpActionError (Some 718%Z)) [("Refuse", [])] eq_refl eq_refl).
Defined.

(** *** Parsing of the request *)

Lemma split_without_separator sep s :
  Text.contains sep s = false -> Text.split sep s = [s].
Proof.
  induction s as [|c r IH]; simpl; [reflexivity|].
  destruct (Ascii.eqb c sep); [discriminate|]. simpl.
  intros H. rewrite (IH H). reflexivity.
Qed.

Lemma header_get_missing h name default :
  (forall k v, In (k, v) h -> Text.lower k <> Text.lower name) ->
  header_get h name default = default.
Proof.
  induction h as [|[k v] r IH]; intros H; simpl; [reflexivity|].
  destruct (String.eqb_spec (Text.lower k) (Text.lower name)) as [E|_].
  - elim (H k v (or_introl eq_refl) E).
  - apply IH. intros k' v' Hin. apply (H k' v'). now right.
Qed.

Lemma parse_arguments_app act before rest kwargs kwargs' :
  parse_arguments act before kwargs = inr kwargs' ->
  parse_arguments act (before ++ rest) kwargs = parse_arguments act rest kwargs'.
Proof.
  revert kwargs. induction before as [|arg r IH]; intros kwargs; simpl.
  - intros H. inversion H. reflexivity.
  - destruct (argument act (tag arg) In_); [|discriminate].
    destruct (coerce_python _ _); [discriminate|]. apply IH.
Qed.

(** What makes the [try] block of [_parse_action_body] fail. *)
Lemma parse_invalid_soap service request :
  (forall a b,
      Text.split "#" (Text.strip Text.dquote
                        (header_get (request_headers request) "SOAPAction" ""))
      <> [a; b]) \/
  request_xml request = None \/
  (exists root_el,
      request_xml request = Some root_el /\
      find_child root_el (qualified NAMESPACES "s" "Body") = None) \/
  (exists root_el body_el,
      request_xml request = Some root_el /\
      find_child root_el (qualified NAMESPACES "s" "Body") = Some body_el /\
      children body_el = []) ->
  _parse_action_body service request = inl (HTTPBadRequest "InvalidSoap").
Proof.
  unfold _parse_action_body.
  intros [Hsplit | [Hxml | [[root_el [Hxml Hbody]] | [root_el [body_el [Hxml [Hbody Hnil]]]]]]].
  - destruct (Text.split "#" _) as [|a [|b [|c l]]]; try reflexivity.
    elim (Hsplit a b eq_refl).
  - rewrite Hxml. destruct (Text.split "#" _) as [|a [|b [|c l]]]; reflexivity.
  - rewrite Hxml, Hbody. destruct (Text.split "#" _) as [|a [|b [|c l]]]; reflexivity.
  - rewrite Hxml, Hbody, Hnil. destruct (Text.split "#" _) as [|a [|b [|c l]]]; reflexivity.
Qed.

Lemma parse_soap_call service request name rpc_el :
  soap_call request name rpc_el ->
  _parse_action_body service request
  = match action (actions service) name with
    | None => inl (HTTPBadRequest "InvalidAction")
    | Some act =>
        match parse_arguments act (children rpc_el) [] with
        | inl exc => inl exc
        | inr kwargs => inr (name, kwargs)
        end
    end.
Proof.
  intros [prefix [root_el [body_el [rest [Hsplit [Hxml [Hbody Hch]]]]]]].
  unfold _parse_action_body. fold (soap_action_of request).
  rewrite Hsplit, Hxml, Hbody, Hch. reflexivity.
Qed.

(** C6, as stated, fails in two ways.  A request element with a child that
    names no in-argument is not answered with [InvalidActionArgument] when an
    earlier child fails to coerce: the coercion error leaves the dispatcher
    first.  And a body whose root element is not [s:Envelope] but has an
    [s:Body] child is accepted. *)
Lemma dispatcher_bad_requests_counterexample :
  (exists rpc_el bad,
      soap_call (sample_request "SetTarget" [leaf "NewLevel" "high"; leaf "Bogus" "1"])
                "SetTarget" rpc_el /\
      In bad (children rpc_el) /\
      argument sample_set_target (tag bad) In_ = None /\
      action_handler sample_server_service
        (sample_request "SetTarget" [leaf "NewLevel" "high"; leaf "Bogus" "1"])
      = (inl (OtherError "ValueError"), [])) /\
  (exists r,
      action_handler sample_server_service
        (sample_request_under "NotAnEnvelope" "SetTarget" [leaf "NewTargetValue" "1"])
      = (inr r, [("SetTarget", [("NewTargetValue", PyBool true)])]) /\
      status r = 200%Z).
Proof.
  split.
  - eexists. exists (leaf "Bogus" "1"). split; [|split; [|split]].
    + do 4 eexists. repeat split; reflexivity.
    + right. left. reflexivity.
    + reflexivity.
    + reflexivity.
  - eexists. split; reflexivity.
Qed.

(** C6, amended: [action_handler] raises [HTTPBadRequest] (status 400) with
    reason [InvalidSoap] when the SOAPAction header is missing, has no [#],
    or does not split on [#] into exactly two parts, when the body does not
    parse as XML, when the parsed root has no [s:Body] child (the tag of the
    root itself is not examined), or when that [s:Body] has no child
    element.  Past these checks it raises [InvalidAction] when the name is not
    an action of the service, and [InvalidActionArgument] when a child of the
    request element names no in-argument and every child before it was
    accepted and coerced.  In all these cases no handler is called. *)
Theorem dispatcher_bad_requests service request :
  (((forall k v, In (k, v) (request_headers request) ->
                 Text.lower k <> Text.lower "SOAPAction") \/
    Text.contains "#" (soap_action_of request) = false \/
    (forall a b, Text.split "#" (soap_action_of request) <> [a; b]) \/
    request_xml request = None \/
    (exists root_el,
        request_xml request = Some root_el /\
        find_child root_el (qualified NAMESPACES "s" "Body") = None) \/
    (exists root_el body_el,
        request_xml request = Some root_el /\
        find_child root_el (qualified NAMESPACES "s" "Body") = Some body_el /\
        children body_el = [])) ->
   action_handler service request = (inl (HTTPBadRequest "InvalidSoap"), [])) /\
  (forall name rpc_el,
      soap_call request name rpc_el ->
      (action (actions service) name = None ->
       action_handler service request = (inl (HTTPBadRequest "InvalidAction"), [])) /\
      (forall act before bad rest kwargs,
          action (actions service) name = Some act ->
          children rpc_el = before ++ bad :: rest ->
          parse_arguments act before [] = inr kwargs ->
          argument act (tag bad) In_ = None ->
          action_handler service request
          = (inl (HTTPBadRequest "InvalidActionArgument"), []))).
Proof.
  split.
  - intros H. unfold action_handler.
    rewrite (parse_invalid_soap service request); [reflexivity|].
    fold (soap_action_of request).
    destruct H as [Hmiss | [Hno | [Hsplit | H]]].
    + left. intros a b. unfold soap_action_of.
      rewrite (header_get_missing _ _ _ Hmiss). discriminate.
    + left. intros a b. rewrite (split_without_separator _ _ Hno). discriminate.
    + left. exact Hsplit.
    + right. exact H.
  - intros name rpc_el Hcall. split.
    + intros Hnone. unfold action_handler.
      rewrite (parse_soap_call _ _ _ _ Hcall), Hnone. reflexivity.
    + intros act before bad rest kwargs Hact Hch Hbefore Hbad. unfold action_handler.
      rewrite (parse_soap_call _ _ _ _ Hcall), Hact, Hch.
      rewrite (parse_arguments_app _ _ _ _ _ Hbefore). cbn [parse_arguments].
      rewrite Hbad. reflexivity.
Qed.

Example sample_missing_soapaction :
  action_handler sample_server_service
    (mkRequest [("Content-Type", "text/xml")]
               (request_xml (sample_request "SetTarget" [])))
  = (inl (HTTPBadRequest "InvalidSoap"), []).
Proof. reflexivity. Qed.

Example sample_empty_body :
  action_handler sample_server_service
    (mkRequest (request_headers (sample_request "SetTarget" []))
               (Some (mkElement (soap_tag "Envelope") [] None
                        [mkElement (soap_tag "Body") [] None []])))
  = (inl (HTTPBadRequest "InvalidSoap"), []).
Proof. reflexivity. Qed.

Example sample_unknown_argument :
  action_handler sample_server_service
    (sample_request "SetTarget" [leaf "NewTargetValue" "1"; leaf "Bogus" "1"])
  = (inl (HTTPBadRequest "InvalidActionArgument"), []).
Proof. reflexivity. Qed.

Lemma sample_set_target_is_soap_call args :
  soap_call (sample_request "SetTarget" args) "SetTarget" (sample_rpc "SetTarget" args).
Proof. do 4 eexists. repeat split; reflexivity. Qed.

Lemma dispatcher_bad_requests_witness :
  action_handler sample_server_service
    (sample_request "SetTarget" [leaf "NewTargetValue" "1"; leaf "Bogus" "1"])
  = (inl (HTTPBadRequest "InvalidActionArgument"), []).
Proof.
  exact (proj2 (proj2 (dispatcher_bad_requests sample_server_service
                         (sample_request "SetTarget"
                            [leaf "NewTargetValue" "1"; leaf "Bogus" "1"]))
                  "SetTarget" (sample_rpc "SetTarget" _)
                  (sample_set_target_is_soap_call _))
           sample_set_target [leaf "NewTargetValue" "1"] (leaf "Bogus" "1") []
           [("NewTargetValue", PyBool true)] eq_refl eq_refl eq_refl eq_refl).
Defined.

Lemma announcer_round_robin_witness :
  length (_build_advertisements sample_root) = 7 /\
  exists self,
    Announcer.ticks 7 sample_announcer = inr self /\
    Announcer._advertisement_index self = 0.
Proof.
  destruct (announcer_round_robin sample_root sample_target [])
    as [Hlen [_ [_ [Hticks _]]]].
  split; [exact Hlen|].
  destruct (Hticks 7) as [self [Hrun [_ [Hidx _]]]].
  exists self. split; [exact Hrun|exact Hidx].
Defined.

(** ** Further properties of the search responder *)

(** X1: before [_async_on_connect] every inbound datagram, also one the
    responder would ignore, makes [_async_on_data] raise [AssertionError]:
    the assertion comes before the start-line check. *)
Theorem on_data_before_connect line headers self :
  _transport self = None ->
  _async_on_data line headers self = (inl AssertionError, self).
Proof.
  intros H. destruct self as [dev tr]; simpl in H; subst tr. reflexivity.
Qed.

Lemma on_data_before_connect_witness :
  _async_on_data "NOTIFY * HTTP/1.1" [] (unconnected sample_root)
  = (inl AssertionError, unconnected sample_root).
Proof.
  exact (on_data_before_connect "NOTIFY * HTTP/1.1" [] (unconnected sample_root) eq_refl).
Defined.

(** X2: on a connected responder [_async_on_data] raises only for a probe
    that passed the start-line and [MAN] checks, and only a [KeyError] for
    [_remote_addr] or [st] or an [AttributeError] for a search target that is
    not text; whenever it raises, nothing was handed to the transport. *)
Theorem on_data_raises_before_sending self sent line headers exc self' :
  connected self sent ->
  _async_on_data line headers self = (inl exc, self') ->
  self' = self /\
  is_discover line headers /\
  ((exc = KeyError "_remote_addr" /\ Headers.get headers "_remote_addr" = None) \/
   (exc = KeyError "st" /\ Headers.get headers "ST" = None) \/
   (exc = AttributeError "lower" /\
    exists a, Headers.get headers "ST" = Some (HAddr a))).
Proof.
  intros Hc Hrun.
  destruct (String.eqb line "M-SEARCH * HTTP/1.1") eqn:El.
  2:{ rewrite (not_discover_returns _ sent) in Hrun; [discriminate|assumption|].
      intros [H _]. apply String.eqb_eq in H. congruence. }
  destruct (man_differs headers) eqn:Em.
  { rewrite (not_discover_returns _ sent) in Hrun; [discriminate|assumption|].
    intros [_ H]. apply man_differs_discover in H. congruence. }
  assert (Hd : is_discover line headers).
  { split; [now apply String.eqb_eq | now apply man_differs_discover]. }
  pose proof Hd as Hd'.
  revert Hrun.
  destruct (Headers.get headers "_remote_addr") as [addr|] eqn:Ea.
  - destruct (Headers.get headers "ST") as [[st|a]|] eqn:Es.
    + rewrite (connected_eq _ _ Hc) at 1.
      rewrite (run_on_data _ sent line headers addr st Hd Ea Es). discriminate.
    + rewrite (get_key_case headers "ST" "st" eq_refl) in Es.
      enter_on_data Hc Hd. rewrite Ea, Es. cbn.
      rewrite <- (connected_eq _ _ Hc). intros H; inversion H; subst.
      split; [reflexivity|]. split; [assumption|]. right; right.
      split; [reflexivity|]. now exists a.
    + rewrite (get_key_case headers "ST" "st" eq_refl) in Es.
      enter_on_data Hc Hd. rewrite Ea, Es. cbn.
      rewrite <- (connected_eq _ _ Hc). intros H; inversion H; subst.
      split; [reflexivity|]. split; [assumption|]. right; left. now split.
  - enter_on_data Hc Hd. rewrite Ea. cbn.
    rewrite <- (connected_eq _ _ Hc). intros H; inversion H; subst.
    split; [reflexivity|]. split; [assumption|]. left. now split.
Qed.

Lemma on_data_raises_before_sending_witness :
  snd (_async_on_data "M-SEARCH * HTTP/1.1" sample_probe_no_st sample_responder)
  = sample_responder /\
  is_discover "M-SEARCH * HTTP/1.1" sample_probe_no_st.
Proof.
  destruct (on_data_raises_before_sending sample_responder [] "M-SEARCH * HTTP/1.1"
              sample_probe_no_st (KeyError "st") sample_responder eq_refl eq_refl)
    as [H1 [H2 _]].
  split; [reflexivity|exact H2].
Defined.

Lemma responses_for_within_all root target :
  incl (responses_for root target) (per_kind_order root).
Proof.
  assert (Hu : forall l, incl l (all_devices root) ->
                         incl (map (device_udn_response root) l) (per_kind_order root)).
  { intros l Hl p Hp. apply in_map_iff in Hp. destruct Hp as [d [<- Hd]].
    right. apply in_or_app. left. apply in_map. now apply Hl. }
  assert (Ht : forall l, incl l (all_devices root) ->
                         incl (map (device_type_response root) l) (per_kind_order root)).
  { intros l Hl p Hp. apply in_map_iff in Hp. destruct Hp as [d [<- Hd]].
    right. apply in_or_app. right. apply in_or_app. left. apply in_map. now apply Hl. }
  assert (Hs : forall l, incl l (all_services root) ->
                         incl (map (service_response root) l) (per_kind_order root)).
  { intros l Hl p Hp. apply in_map_iff in Hp. destruct Hp as [d [<- Hd]].
    right. apply in_or_app. right. apply in_or_app. right. apply in_map. now apply Hl. }
  unfold responses_for.
  destruct (String.eqb target SSDP_ST_ALL); [apply incl_refl|].
  destruct (String.eqb target SSDP_ST_ROOTDEVICE).
  { intros p [<-|[]]. now left. }
  destruct (truthy _); [apply Hu, incl_filter|].
  destruct (truthy _); [apply Ht, incl_filter|apply Hs, incl_filter].
Qed.

Lemma sent_more_inj self (sent a b : list Datagram) (r : SsdpExc + unit) :
  (r, mkResponder (device self) (Some (sent ++ a))) = (r, after self sent b) -> a = b.
Proof.
  unfold after. intros H. inversion H as [E]. now apply app_inv_head in E.
Qed.

(** X3: whatever a probe asks for, each datagram the responder sends for it
    is also among the datagrams it sends to the same peer for [ssdp:all]. *)
Theorem targeted_responses_within_all
    self sent line headers headers_all addr st st_all new new_all :
  connected self sent ->
  is_discover line headers ->
  is_discover line headers_all ->
  Headers.get headers "_remote_addr" = Some addr ->
  Headers.get headers_all "_remote_addr" = Some addr ->
  Headers.get headers "ST" = Some (HStr st) ->
  Headers.get headers_all "ST" = Some (HStr st_all) ->
  Text.lower st_all = SSDP_ST_ALL ->
  _async_on_data line headers self = (inr tt, after self sent new) ->
  _async_on_data line headers_all self = (inr tt, after self sent new_all) ->
  incl new new_all.
Proof.
  intros Hc Hd Hd' Ha Ha' Hs Hs' Hall Hrun Hrun'.
  rewrite (connected_eq _ _ Hc) in Hrun at 1.
  rewrite (connected_eq _ _ Hc) in Hrun' at 1.
  rewrite (run_on_data _ sent line headers addr st Hd Ha Hs) in Hrun.
  rewrite (run_on_data _ sent line headers_all addr st_all Hd' Ha' Hs') in Hrun'.
  apply sent_more_inj in Hrun. apply sent_more_inj in Hrun'. subst new new_all.
  rewrite (responses_for_all _ _ Hall).
  intros d Hd0. apply in_map_iff in Hd0. destruct Hd0 as [p [<- Hp]].
  apply (in_map (fun q => (q, addr))).
  now apply (responses_for_within_all _ (Text.lower st)).
Qed.

Lemma targeted_responses_within_all_witness :
  incl (to_peer sample_peer [service_response sample_root sample_child_service])
       (to_peer sample_peer (per_kind_order sample_root)).
Proof.
  exact (targeted_responses_within_all sample_responder [] "M-SEARCH * HTTP/1.1"
           (sample_probe "urn:schemas-upnp-org:service:inner:1") (sample_probe "ssdp:all")
           sample_peer "urn:schemas-upnp-org:service:inner:1" "ssdp:all" _ _
           eq_refl (sample_probe_is_discover _) (sample_probe_is_discover _)
           eq_refl eq_refl eq_refl eq_refl eq_refl eq_refl eq_refl).
Defined.

Lemma filter_unique_key {X} (key : X -> string) (l : list X) (x : X) :
  NoDup (map key l) -> In x l ->
  filter (fun y => String.eqb (key y) (key x)) l = [x].
Proof.
  induction l as [|y r IH]; intros Hnd Hin; [destruct Hin|].
  simpl in Hnd. inversion Hnd as [|k ks Hnotin Hnd']; subst. simpl.
  destruct Hin as [->|Hin].
  - rewrite String.eqb_refl. f_equal. apply filter_none.
    intros z Hz. apply String.eqb_neq. intros E. apply Hnotin.
    rewrite <- E. now apply in_map.
  - destruct (String.eqb_spec (key y) (key x)) as [E|_].
    + exfalso. apply Hnotin. rewrite E. now apply in_map.
    + now apply IH.
Qed.

(** X4: when the UDNs of the tree are pairwise distinct up to letter case,
    a probe for the UDN of a device of the tree is answered by exactly one
    datagram, the UDN response for that device, even if some device type or
    service type reads the same. *)
Theorem udn_probe_single_response self sent line headers addr st dev :
  connected self sent ->
  is_discover line headers ->
  Headers.get headers "_remote_addr" = Some addr ->
  Headers.get headers "ST" = Some (HStr st) ->
  NoDup (map (fun d => Text.lower (udn d)) (all_devices (device self))) ->
  In dev (all_devices (device self)) ->
  Text.lower st = Text.lower (udn dev) ->
  Text.lower st <> SSDP_ST_ALL ->
  Text.lower st <> SSDP_ST_ROOTDEVICE ->
  _async_on_data line headers self
  = (inr tt, after self sent [(device_udn_response (device self) dev, addr)]).
Proof.
  intros Hc Hd Ha Hs Hnd Hin Hm Hna Hnr.
  rewrite (connected_eq _ _ Hc) at 1.
  rewrite (run_on_data _ sent line headers addr st Hd Ha Hs).
  rewrite (responses_for_targeted _ _ Hna Hnr).
  unfold _matched_devices_by_uuid at 1 2, unconnected. cbn [device].
  rewrite Hm.
  rewrite (filter_unique_key (fun d => Text.lower (udn d)) _ dev Hnd Hin).
  reflexivity.
Qed.

Lemma udn_probe_single_response_witness :
  _async_on_data "M-SEARCH * HTTP/1.1" (sample_probe "UUID:Child") sample_responder
  = (inr tt, after sample_responder [] [(device_udn_response sample_root sample_child, sample_peer)]).
Proof.
  refine (udn_probe_single_response sample_responder [] "M-SEARCH * HTTP/1.1"
            (sample_probe "UUID:Child") sample_peer "UUID:Child" sample_child
            eq_refl (sample_probe_is_discover _) eq_refl eq_refl _ _ eq_refl _ _).
  - repeat constructor; simpl; intuition discriminate.
  - right. left. reflexivity.
  - discriminate.
  - discriminate.
Defined.

(** ** Responder and announcer together *)

Lemma all_devices_single root :
  embedded_devices root = [] -> all_devices root = [root].
Proof. intros E. destruct root; simpl in *. now rewrite E. Qed.

(** X5: for a root device without embedded devices whose services refer
    back to it, the alive advertisements announce, slot by slot, the same
    target, USN and LOCATION as the responses to [ssdp:all] carry in [ST],
    [USN] and [LOCATION]. *)
Theorem advertisements_agree_with_search_responses root :
  embedded_devices root = [] ->
  (forall service, In service (services root) -> device_udn service = udn root) ->
  map advertisement_identity (_build_advertisements root)
  = map response_identity (responses_for root SSDP_ST_ALL).
Proof.
  intros Hemb Hback.
  rewrite build_advertisements_slots, (responses_for_all root _ eq_refl).
  unfold per_kind_order, all_services.
  rewrite (all_devices_single root Hemb). cbn [flat_map map app].
  rewrite app_nil_r. cbn [map]. f_equal. f_equal. f_equal.
  rewrite !map_map. apply map_ext_in. intros s Hs.
  unfold advertisement_identity, response_identity, service_advertisement,
    service_response, search_response, packet_header, build_ssdp_packet.
  cbn. rewrite (Hback s Hs). reflexivity.
Qed.

Lemma advertisements_agree_with_search_responses_witness :
  map advertisement_identity (_build_advertisements sample_child)
  = map response_identity (responses_for sample_child SSDP_ST_ALL).
Proof.
  refine (advertisements_agree_with_search_responses sample_child eq_refl _).
  intros service [<-|[]]. reflexivity.
Defined.

(** With an embedded device the two differ: the announcer names the owning
    device in the USN where the responder names the root. *)
Example advertisements_differ_with_embedded_device :
  nth 4 (map advertisement_identity (_build_advertisements sample_root)) []
  <> nth 4 (map response_identity
              (per_device_order sample_root)) [].
Proof. vm_compute. discriminate. Qed.

(** X6: on a connected announcer whose list was built from its device,
    [_send_byebye] hands exactly one NOTIFY to the transport, addressed to the
    target.  It carries [ssdp:byebye] and the same [NT], [USN] and [LOCATION]
    as the root slot of the advertisements, but neither [BOOTID.UPNP.ORG] nor
    [CONFIGID.UPNP.ORG], which every advertisement has.  The list and the
    cursor are left as they were. *)
Theorem byebye_matches_root_advertisement self sent :
  Announcer._transport self = Some sent ->
  Announcer._advertisements self = _build_advertisements (Announcer.device self) ->
  exists headers,
    _send_byebye self
    = inr (Announcer.mkAnnouncer (Announcer.device self) (Announcer.target self)
             (Some (sent ++ [("NOTIFY * HTTP/1.1", headers, Announcer.target self)]))
             (Announcer._advertisements self) (Announcer._advertisement_index self)) /\
    Headers.get headers "NTS" = Some (HStr "ssdp:byebye") /\
    advertisement_identity headers = advertisement_identity (Announcer.slot self 0) /\
    Headers.get headers "BOOTID.UPNP.ORG" = None /\
    Headers.get headers "CONFIGID.UPNP.ORG" = None /\
    Forall (fun ad => Headers.get ad "BOOTID.UPNP.ORG" = Some (HStr "1") /\
                      Headers.get ad "CONFIGID.UPNP.ORG" = Some (HStr "1"))
           (Announcer._advertisements self).
Proof.
  intros Htr Hads. unfold _send_byebye. rewrite Htr.
  eexists. split; [reflexivity|].
  split; [reflexivity|]. split.
  { unfold Announcer.slot. rewrite Hads, build_advertisements_slots. reflexivity. }
  split; [reflexivity|]. split; [reflexivity|].
  rewrite Hads, build_advertisements_slots.
  constructor; [split; reflexivity|].
  apply Forall_app. split; apply Forall_forall; intros h Hin.
  - apply in_flat_map in Hin. destruct Hin as [d [_ [<-|[<-|[]]]]]; split; reflexivity.
  - apply in_map_iff in Hin. destruct Hin as [s [<- _]]. split; reflexivity.
Qed.

Lemma byebye_matches_root_advertisement_witness :
  exists headers,
    _send_byebye sample_announcer
    = inr (Announcer.mkAnnouncer sample_root sample_target
             (Some ([] ++ [("NOTIFY * HTTP/1.1", headers, sample_target)]))
             (_build_advertisements sample_root) 0) /\
    Headers.get headers "NTS" = Some (HStr "ssdp:byebye").
Proof.
  destruct (byebye_matches_root_advertisement sample_announcer [] eq_refl eq_refl)
    as [headers [Hrun [Hnts _]]].
  exists headers. split; [exact Hrun|exact Hnts].
Defined.

(** ** Further properties of the SOAP dispatcher *)

Lemma kwargs_set_keys kwargs name value k :
  In k (map fst (kwargs_set kwargs name value)) <-> k = name \/ In k (map fst kwargs).
Proof.
  induction kwargs as [|[k0 v0] r IH]; simpl.
  - intuition.
  - destruct (String.eqb_spec k0 name) as [E|E]; simpl.
    + subst. intuition.
    + rewrite IH. intuition.
Qed.

Lemma kwargs_set_NoDup kwargs name value :
  NoDup (map fst kwargs) -> NoDup (map fst (kwargs_set kwargs name value)).
Proof.
  induction kwargs as [|[k0 v0] r IH]; simpl; intros Hnd.
  - constructor; [intros []|constructor].
  - inversion Hnd as [|x xs Hnotin Hnd']; subst.
    destruct (String.eqb_spec k0 name) as [E|E]; simpl.
    + now constructor.
    + constructor; [|now apply IH].
      rewrite kwargs_set_keys. intros [H|H]; [congruence|contradiction].
Qed.

Lemma kwargs_set_fresh kwargs name value :
  ~ In name (map fst kwargs) -> kwargs_set kwargs name value = kwargs ++ [(name, value)].
Proof.
  induction kwargs as [|[k0 v0] r IH]; simpl; intros Hn; [reflexivity|].
  destruct (String.eqb_spec k0 name) as [E|E]; [elim Hn; now left|].
  rewrite IH; [reflexivity|]. intros H. apply Hn. now right.
Qed.

Lemma argument_found act name dir arg :
  argument act name dir = Some arg ->
  In arg (arguments act) /\ arg_name arg = name /\ direction arg = dir.
Proof.
  unfold argument. intros H. apply find_some in H. destruct H as [Hin Hb].
  apply andb_prop in Hb. destruct Hb as [Hn Hd]. apply String.eqb_eq in Hn.
  repeat split; try assumption.
  destruct (direction arg), dir; simpl in Hd; congruence.
Qed.

Lemma parse_arguments_keys act args :
  forall kwargs kwargs',
    parse_arguments act args kwargs = inr kwargs' ->
    (NoDup (map fst kwargs) -> NoDup (map fst kwargs')) /\
    (forall k, In k (map fst kwargs') <-> In k (map tag args) \/ In k (map fst kwargs)) /\
    (forall k, In k (map tag args) -> exists arg, argument act k In_ = Some arg).
Proof.
  induction args as [|el rest IH]; intros kwargs kwargs'; simpl.
  - intros H. inversion H; subst. split; [tauto|]. split; [tauto|]. intros k [].
  - destruct (argument act (tag el) In_) as [arg|] eqn:Ea; [|discriminate].
    destruct (coerce_python _ _) as [exc|value]; [discriminate|].
    intros H. destruct (IH _ _ H) as [Hnd [Hkeys Hargs]]. split; [|split].
    + intros Hk. apply Hnd. now apply kwargs_set_NoDup.
    + intros k. rewrite Hkeys, kwargs_set_keys. intuition.
    + intros k [<-|Hk]; [now exists arg|now apply Hargs].
Qed.

Lemma parse_success_is_soap_call service request name kwargs :
  _parse_action_body service request = inr (name, kwargs) ->
  exists rpc_el act,
    soap_call request name rpc_el /\
    action (actions service) name = Some act /\
    parse_arguments act (children rpc_el) [] = inr kwargs.
Proof.
  unfold _parse_action_body. fold (soap_action_of request).
  destruct (Text.split "#" (soap_action_of request)) as [|a [|b [|c l]]] eqn:Es;
    try discriminate.
  destruct (request_xml request) as [root_el|] eqn:Ex; [|discriminate].
  destruct (find_child root_el _) as [body_el|] eqn:Eb; [|discriminate].
  destruct (children body_el) as [|rpc_el rest] eqn:Ec; [discriminate|].
  destruct (action (actions service) b) as [act|] eqn:Ea; [|discriminate].
  destruct (parse_arguments act (children rpc_el) []) as [exc|kw] eqn:Ep; [discriminate|].
  intros H. inversion H; subst.
  exists rpc_el, act. split; [|split; [assumption|assumption]].
  exists a, root_el, body_el, rest. repeat split; assumption.
Qed.

(** X7: when [_parse_action_body] returns, the name is an action of the
    service and the keyword arguments have pairwise distinct keys, which are
    exactly the tags of the children of the request element, each naming an
    in-argument of that action. *)
Theorem parsed_kwargs_name_in_arguments service request name kwargs :
  _parse_action_body service request = inr (name, kwargs) ->
  exists rpc_el act,
    soap_call request name rpc_el /\
    action (actions service) name = Some act /\
    NoDup (map fst kwargs) /\
    (forall k, In k (map fst kwargs) <-> In k (map tag (children rpc_el))) /\
    (forall k, In k (map fst kwargs) ->
               exists arg, In arg (arguments act) /\ arg_name arg = k /\ direction arg = In_).
Proof.
  intros H. destruct (parse_success_is_soap_call _ _ _ _ H) as [rpc_el [act [Hc [Ha Hp]]]].
  exists rpc_el, act.
  destruct (parse_arguments_keys _ _ _ _ Hp) as [Hnd [Hkeys Hargs]].
  split; [assumption|]. split; [assumption|]. split; [apply Hnd; constructor|].
  split.
  - intros k. rewrite Hkeys. simpl. tauto.
  - intros k Hk. apply Hkeys in Hk. destruct Hk as [Hk|[]].
    destruct (Hargs k Hk) as [arg Harg]. exists arg. now apply argument_found in Harg.
Qed.

Lemma parsed_kwargs_name_in_arguments_witness :
  exists rpc_el act,
    soap_call (sample_request "SetTarget" [leaf "NewLevel" "3"; leaf "NewLevel" "4"])
              "SetTarget" rpc_el /\
    action (actions sample_server_service) "SetTarget" = Some act /\
    NoDup (map fst [("NewLevel", PyInt 4)]).
Proof.
  destruct (parsed_kwargs_name_in_arguments sample_server_service
              (sample_request "SetTarget" [leaf "NewLevel" "3"; leaf "NewLevel" "4"])
              "SetTarget" [("NewLevel", PyInt 4)] eq_refl)
    as [rpc_el [act [Hc [Ha [Hnd _]]]]].
  exists rpc_el, act. repeat split; assumption.
Defined.

Lemma parse_arguments_in_order act args :
  forall kwargs kwargs',
    NoDup (map tag args) ->
    (forall k, In k (map tag args) -> ~ In k (map fst kwargs)) ->
    parse_arguments act args kwargs = inr kwargs' ->
    map fst kwargs' = map fst kwargs ++ map tag args.
Proof.
  induction args as [|el rest IH]; intros kwargs kwargs' Hnd Hfresh; simpl.
  - intros H. inversion H; subst. now rewrite app_nil_r.
  - destruct (argument act (tag el) In_) as [arg|]; [|discriminate].
    destruct (coerce_python _ _) as [exc|value]; [discriminate|].
    inversion Hnd as [|x xs Hnotin Hnd']; subst.
    rewrite kwargs_set_fresh by (apply Hfresh; now left).
    intros H. apply IH in H; [|assumption|].
    + rewrite H, map_app, <- app_assoc. reflexivity.
    + intros k Hk. rewrite map_app, in_app_iff. simpl.
      intros [Hin|[<-|[]]]; [|contradiction].
      apply (Hfresh k); [now right|assumption].
Qed.

(** X8: when the children of the request element have pairwise distinct
    tags, the keyword arguments list them in document order. *)
Theorem parsed_kwargs_in_document_order service request name kwargs rpc_el :
  soap_call request name rpc_el ->
  NoDup (map tag (children rpc_el)) ->
  _parse_action_body service request = inr (name, kwargs) ->
  map fst kwargs = map tag (children rpc_el).
Proof.
  intros Hc Hnd H. rewrite (parse_soap_call _ _ _ _ Hc) in H.
  destruct (action (actions service) name) as [act|]; [|discriminate].
  destruct (parse_arguments act (children rpc_el) []) as [exc|kw] eqn:Ep; [discriminate|].
  inversion H; subst.
  apply (parse_arguments_in_order act _ [] _ Hnd) in Ep; [exact Ep|].
  intros k _ [].
Qed.

Lemma parsed_kwargs_in_document_order_witness :
  map fst [("NewLevel", PyInt 3); ("NewTargetValue", PyBool false)]
  = map tag (children (sample_rpc "SetTarget"
                         [leaf "NewLevel" "3"; leaf "NewTargetValue" "no"])).
Proof.
  refine (parsed_kwargs_in_document_order sample_server_service
            (sample_request "SetTarget" [leaf "NewLevel" "3"; leaf "NewTargetValue" "no"])
            "SetTarget" _ _ (sample_set_target_is_soap_call _) _ eq_refl).
  repeat constructor; simpl; intuition discriminate.
Defined.

(** X9: [action_handler] calls a bound handler at most once, and only after
    the request was parsed and the arguments validated.  A response with
    status 200 is returned only after such a call and is no SOAP fault; every
    other response it returns has status 500 and is a SOAP fault. *)
Theorem action_handler_outcomes service request outcome calls :
  action_handler service request = (outcome, calls) ->
  (calls = [] \/
   exists name kwargs act,
     calls = [(name, kwargs)] /\
     _parse_action_body service request = inr (name, kwargs) /\
     action (actions service) name = Some act /\
     validate_arguments act kwargs = None) /\
  (forall r, outcome = inr r ->
             (status r = 200%Z /\ is_soap_fault r = false /\ calls <> []) \/
             (status r = 500%Z /\ is_soap_fault r = true)).
Proof.
  unfold action_handler, async_handle_action.
  destruct (_parse_action_body service request) as [exc|[name kwargs]] eqn:Ep.
  { intros H; inversion H; subst. split; [now left|]. intros r Hr; discriminate. }
  destruct (action (actions service) name) as [act|] eqn:Ea.
  2:{ intros H; inversion H; subst. split; [now left|]. intros r Hr; discriminate. }
  destruct (validate_arguments act kwargs) as [exc|] eqn:Ev.
  { destruct exc; intros H; inversion H; subst; (split; [now left|]);
      intros r Hr; inversion Hr; subst; right; split; reflexivity. }
  assert (Hcalls : [(name, kwargs)] = [] \/
                   exists name0 kwargs0 act0,
                     [(name, kwargs)] = [(name0, kwargs0)] /\
                     inr (name, kwargs) = @inr PyExc _ (name0, kwargs0) /\
                     action (actions service) name0 = Some act0 /\
                     validate_arguments act0 kwargs0 = None).
  { right. exists name, kwargs, act. repeat split; assumption. }
  destruct (async_handle act kwargs) as [exc|result].
  - destruct exc; intros H; inversion H; subst; (split; [exact Hcalls|]);
      intros r Hr; inversion Hr; subst; right; split; reflexivity.
  - intros H; inversion H; subst. split; [exact Hcalls|].
    intros r Hr; inversion Hr; subst. left. repeat split. discriminate.
Qed.

Lemma action_handler_outcomes_witness :
  ([("SetTarget", [("NewTargetValue", PyBool true)])] = [] \/
   exists name kwargs act,
     [("SetTarget", [("NewTargetValue", PyBool true)])] = [(name, kwargs)] /\
     _parse_action_body sample_server_service
       (sample_request "SetTarget" [leaf "NewTargetValue" "1"]) = inr (name, kwargs) /\
     action (actions sample_server_service) name = Some act /\
     validate_arguments act kwargs = None).
Proof.
  exact (proj1 (action_handler_outcomes sample_server_service
                  (sample_request "SetTarget" [leaf "NewTargetValue" "1"]) _ _ eq_refl)).
Defined.

(** *** The error code is never zero *)

Lemma append_snoc (front : string) (d : ascii) (acc : string) :
  (front ++ String d acc)%string = ((front ++ String d EmptyString) ++ acc)%string.
Proof. induction front as [|c r IH]; simpl; [reflexivity|]. now rewrite IH. Qed.

Lemma digits_suffix fuel :
  forall n acc, exists front, Text.digits fuel n acc = (front ++ acc)%string /\
                              (0 < fuel -> front <> EmptyString).
Proof.
  induction fuel as [|f IH]; intros n acc; cbn [Text.digits].
  - exists EmptyString. split; [reflexivity|lia].
  - destruct (n <? 10)%Z.
    + eexists (String _ EmptyString). split; [reflexivity|discriminate].
    + destruct (IH (n / 10)%Z (String (ascii_of_nat (48 + Z.to_nat (n mod 10))) acc))
        as [front [E _]].
      exists (front ++ String (ascii_of_nat (48 + Z.to_nat (n mod 10))) EmptyString)%string.
      split.
      * rewrite E. apply append_snoc.
      * intros _. destruct front; discriminate.
Qed.

Lemma digit_zero m : (m < 10)%nat -> ascii_of_nat (48 + m) = "0"%char -> m = 0%nat.
Proof.
  intros Hm. do 10 (destruct m as [|m]; [try reflexivity; discriminate|]). lia.
Qed.

Lemma str_of_int_zero n : Text.str_of_int n = "0" -> n = 0%Z.
Proof.
  unfold Text.str_of_int.
  destruct (n <? 0)%Z eqn:Eneg; [discriminate|].
  apply Z.ltb_ge in Eneg. cbn [Text.digits].
  destruct (n <? 10)%Z eqn:Esmall.
  - apply Z.ltb_lt in Esmall. intros H. inversion H as [Hd].
    assert (Hm : (Z.to_nat (n mod 10) < 10)%nat).
    { pose proof (Z.mod_pos_bound n 10). lia. }
    pose proof (digit_zero _ Hm Hd) as Hz.
    rewrite Z.mod_small in Hz by lia. lia.
  - apply Z.ltb_ge in Esmall.
    assert (Hlog : (0 < Z.to_nat (Z.log2 n))%nat).
    { assert (3 <= Z.log2 n)%Z by (apply Z.log2_le_pow2; simpl; lia). lia. }
    destruct (digits_suffix (Z.to_nat (Z.log2 n)) (n / 10)%Z
                (String (ascii_of_nat (48 + Z.to_nat (n mod 10))) EmptyString))
      as [front [E Hne]].
    rewrite E. specialize (Hne Hlog).
    destruct front as [|c [|c' r]]; [now elim Hne|discriminate|discriminate].
Qed.

(** X10: no fault response built by [_create_error_action_response] has
    the error code 0: an action error that carries 0 is reported as 501. *)
Theorem fault_error_code_never_zero exception :
  fault_code exception <> 0%Z /\
  fault_error_code (_create_error_action_response exception) <> Some "0".
Proof.
  assert (Hc : fault_code exception <> 0%Z).
  { destruct exception as [reason|[code|]| | |name]; cbn; try discriminate.
    destruct (Z.eqb_spec code 0); [discriminate|assumption]. }
  split; [exact Hc|].
  destruct (error_response_shape exception) as [_ [_ ->]].
  intros H. inversion H as [E]. apply str_of_int_zero in E. contradiction.
Qed.

(** ** The description serializer *)

Example sample_action_xml_rows :
  argument_rows (_action_to_xml sample_get_status)
  = [ [Some "Channel"; Some "in"; Some "Level"];
      [Some "ResultStatus"; Some "out"; Some "Target"];
      [Some "ResultLevel"; Some "out"; Some "Level"] ].
Proof. reflexivity. Qed.

Lemma in_out_partition (l : list Argument) :
  Permutation
    (filter (fun arg => direction_eqb (direction arg) In_) l
       ++ filter (fun arg => direction_eqb (direction arg) Out_) l)
    l.
Proof.
  induction l as [|a r IH]; simpl; [constructor|].
  destruct (direction a); simpl.
  - now constructor.
  - apply Permutation_sym, Permutation_cons_app, Permutation_sym, IH.
Qed.

Lemma action_xml_rows act :
  argument_rows (_action_to_xml act)
  = map argument_row (in_arguments act ++ out_arguments act).
Proof.
  unfold _action_to_xml, argument_rows, find_child, in_arguments, out_arguments.
  destruct (arguments act) as [|a r] eqn:E; [reflexivity|].
  cbn [children find tag String.eqb]. cbn.
  rewrite <- map_app, map_map. reflexivity.
Qed.

(** X11: the description of an action lists every argument of the action
    exactly once, the in-arguments (in their order) before the out-arguments
    (in their order), each with its name, direction and related state
    variable; an action without arguments has no [argumentList] element at
    all. *)
Theorem action_xml_lists_in_before_out act :
  argument_rows (_action_to_xml act)
  = map argument_row (in_arguments act ++ out_arguments act) /\
  Permutation (in_arguments act ++ out_arguments act) (arguments act) /\
  (arguments act = [] -> children (_action_to_xml act) = [leaf "name" (action_name act)]).
Proof.
  split; [|split].
  - apply action_xml_rows.
  - apply in_out_partition.
  - intros E. unfold _action_to_xml. rewrite E. reflexivity.
Qed.

Section DeviceDescriptionFacts.

Variable describe : UpnpDevice -> DeviceDescription.
Variable urls : UpnpService -> ServiceUrls.

(** Induction over a device tree: the property holds for a device when it
  holds for all its embedded devices. *)
Fixpoint device_tree_ind (P : UpnpDevice -> Prop)
  (step : forall dev, Forall P (embedded_devices dev) -> P dev)
  (dev : UpnpDevice) {struct dev} : P dev :=
step dev
  ((fix each (l : list UpnpDevice) : Forall P l :=
      match l with
      | [] => Forall_nil P
      | d :: r => Forall_cons d (device_tree_ind P step d) (each r)
      end) (embedded_devices dev)).

Lemma flat_map_nothing {X Y} (f : X -> list Y) (l : list X) :
(forall x, f x = []) -> flat_map f l = [].
Proof. intros H. induction l as [|x r IH]; simpl; [reflexivity|]. now rewrite H, IH. Qed.

Lemma flat_map_map {X Y W} (f : X -> Y) (g : Y -> list W) (l : list X) :
flat_map g (map f l) = flat_map (fun x => g (f x)) l.
Proof. induction l as [|x r IH]; simpl; [reflexivity|]. now rewrite IH. Qed.

Lemma flat_map_by_Forall {X Y} (f g : X -> list Y) (l : list X) :
Forall (fun x => f x = g x) l -> flat_map f l = flat_map g l.
Proof. induction 1 as [|x r Hx _ IH]; simpl; [reflexivity|]. now rewrite Hx, IH. Qed.

Lemma map_flat_map {X Y W} (f : Y -> W) (g : X -> list Y) (l : list X) :
map f (flat_map g l) = flat_map (fun x => map f (g x)) l.
Proof.
induction l as [|x r IH]; simpl; [reflexivity|]. now rewrite map_app, IH.
Qed.

Lemma flat_map_nested {X Y W} (f : X -> list Y) (g : Y -> list W) (l : list X) :
flat_map g (flat_map f l) = flat_map (fun x => flat_map g (f x)) l.
Proof.
induction l as [|x r IH]; simpl; [reflexivity|]. now rewrite flat_map_app, IH.
Qed.

Lemma udn_texts_of_bare dev :
texts_of "UDN" (_device_to_xml_bare describe urls dev)
= map (fun d => Some (udn d)) (all_devices dev).
Proof.
induction dev as [dev IH] using device_tree_ind.
destruct dev as [u t b url svcs emb]. cbn [embedded_devices] in IH.
cbn [_device_to_xml_bare texts_of tag children text flat_map leaf sub_element
     String.eqb Ascii.eqb Bool.eqb app udn device_type services embedded_devices
     all_devices map].
rewrite !flat_map_map.
rewrite (flat_map_nothing (fun x => texts_of "UDN" (icon_to_xml x))) by reflexivity.
rewrite (flat_map_nothing (fun x => texts_of "UDN" (service_to_xml_entry urls x)))
  by reflexivity.
rewrite (flat_map_by_Forall _ _ _ IH). cbn [app].
rewrite app_nil_r, map_flat_map. reflexivity.
Qed.

Lemma service_type_texts_of_bare dev :
texts_of "serviceType" (_device_to_xml_bare describe urls dev)
= map (fun s => Some (service_type s)) (all_services dev).
Proof.
unfold all_services.
induction dev as [dev IH] using device_tree_ind.
destruct dev as [u t b url svcs emb]. cbn [embedded_devices] in IH.
cbn [_device_to_xml_bare texts_of tag children text flat_map leaf sub_element
     String.eqb Ascii.eqb Bool.eqb app udn device_type services embedded_devices
     all_devices map].
rewrite !flat_map_map.
rewrite (flat_map_nothing (fun x => texts_of "serviceType" (icon_to_xml x))) by reflexivity.
rewrite (flat_map_by_Forall _ _ _ IH). cbn [app].
rewrite app_nil_r, map_app, flat_map_nested, map_flat_map.
f_equal.
Qed.

(** X12: the device description document names, in document order, the
  UDN of every device of [all_devices] and the type of every service of
  [all_services], each exactly once and in the order of those
  enumerations. *)
Theorem device_xml_follows_enumerations dev :
texts_of "UDN" (_device_to_xml describe urls dev)
= map (fun d => Some (udn d)) (all_devices dev) /\
texts_of "serviceType" (_device_to_xml describe urls dev)
= map (fun s => Some (service_type s)) (all_services dev).
Proof.
split.
- unfold _device_to_xml. cbn [texts_of tag children text flat_map leaf String.eqb
                               Ascii.eqb Bool.eqb app].
  rewrite app_nil_r. apply udn_texts_of_bare.
- unfold _device_to_xml. cbn [texts_of tag children text flat_map leaf String.eqb
                               Ascii.eqb Bool.eqb app].
  rewrite app_nil_r. apply service_type_texts_of_bare.
Qed.

End DeviceDescriptionFacts.

Example sample_device_xml_udns :
  texts_of "UDN" (_device_to_xml sample_description sample_urls sample_root)
  = [Some "uuid:root"; Some "uuid:child"].
Proof. reflexivity. Qed.

(** ** Binding of action handlers *)

Lemma lookup_store_same {V} (m : list (string * V)) name (v : V) :
  lookup (store m name v) name = Some v.
Proof.
  induction m as [|[k w] r IH]; simpl.
  - now rewrite String.eqb_refl.
  - destruct (String.eqb k name) eqn:E; simpl; rewrite E; [reflexivity|exact IH].
Qed.

Lemma lookup_store_other {V} (m : list (string * V)) name other (v : V) :
  other <> name -> lookup (store m name v) other = lookup m other.
Proof.
  intros Hne. induction m as [|[k w] r IH]; simpl.
  - apply String.eqb_neq in Hne. rewrite String.eqb_sym in Hne. now rewrite Hne.
  - destruct (String.eqb_spec k name) as [E|E]; simpl.
    + subst. destruct (String.eqb_spec name other); [congruence|reflexivity].
    + destruct (String.eqb k other); [reflexivity|exact IH].
Qed.

Lemma action_is_lookup (m : list (string * UpnpServerAction)) name :
  action m name = lookup m name.
Proof. induction m as [|[k a] r IH]; simpl; [reflexivity|]. now rewrite IH. Qed.

Section BindingFacts.

Variable data_type_python : UpnpStateVariable -> PyType.
Variable client_validate : list Argument -> Kwargs -> option PyExc.
Variable state_variables : list (string * UpnpStateVariable).

Lemma build_in_arguments_shape func in_args args :
build_in_arguments data_type_python state_variables func in_args = inr args ->
Forall2 (built_for state_variables In_) args in_args /\
Forall2 (fun arg decl =>
           lookup (annotations func) (fst decl)
           = Some (data_type_python (related_state_variable arg)))
        args in_args.
Proof.
revert args. induction in_args as [|[name sv] rest IH]; intros args; simpl.
- intros H; inversion H; subst. split; constructor.
- destruct (lookup (annotations func) name) as [annotation|] eqn:Ea; [|discriminate].
  unfold state_variable.
  destruct (lookup state_variables sv) as [state_var|] eqn:Es; [|discriminate].
  destruct (pytype_eqb (data_type_python state_var) annotation) eqn:Et; [|discriminate].
  cbn [negb].
  destruct (build_in_arguments _ _ _ rest) as [exc|tail]; [discriminate|].
  intros H; inversion H; subst. destruct (IH tail eq_refl) as [H1 H2].
  split; constructor; try assumption.
  + repeat split; assumption.
  + simpl. rewrite Ea. f_equal.
    destruct (data_type_python state_var), annotation; simpl in Et;
      try discriminate; try reflexivity.
    apply String.eqb_eq in Et. now subst.
Qed.

Lemma build_out_arguments_shape out_args args :
build_out_arguments state_variables out_args = inr args ->
Forall2 (built_for state_variables Out_) args out_args.
Proof.
revert args. induction out_args as [|[name sv] rest IH]; intros args; simpl.
- intros H; inversion H; subst. constructor.
- unfold state_variable.
  destruct (lookup state_variables sv) as [state_var|] eqn:Es; [|discriminate].
  destruct (build_out_arguments _ rest) as [exc|tail]; [discriminate|].
  intros H; inversion H; subst. constructor; [|now apply IH].
  repeat split; assumption.
Qed.

Lemma filter_all {X} (f : X -> bool) (l : list X) :
Forall (fun x => f x = true) l -> filter f l = l.
Proof. induction 1 as [|x r Hx _ IH]; simpl; [reflexivity|]. now rewrite Hx, IH. Qed.

Lemma filter_nothing {X} (f : X -> bool) (l : list X) :
Forall (fun x => f x = false) l -> filter f l = [].
Proof. induction 1 as [|x r Hx _ IH]; simpl; [reflexivity|]. now rewrite Hx, IH. Qed.

Lemma built_direction dir args decls :
Forall2 (built_for state_variables dir) args decls -> Forall (fun arg => direction arg = dir) args.
Proof. induction 1 as [|a d r ds [_ [Hd _]] _ IH]; constructor; assumption. Qed.

Lemma built_names dir args decls :
Forall2 (built_for state_variables dir) args decls -> map arg_name args = map fst decls.
Proof.
induction 1 as [|a d r ds [Hn _] _ IH]; simpl; [reflexivity|]. now rewrite Hn, IH.
Qed.

Lemma init_action_shape service_actions func actions' act :
_init_action data_type_python client_validate state_variables service_actions func
= inr (actions', act) ->
action actions' (upnp_action_name func) = Some act /\
(forall other, other <> upnp_action_name func ->
               action actions' other = action service_actions other) /\
action_name act = upnp_action_name func /\
async_handle act = call func /\
arguments act = in_arguments act ++ out_arguments act /\
Forall2 (built_for state_variables In_) (in_arguments act) (upnp_in_args func) /\
Forall2 (built_for state_variables Out_) (out_arguments act) (upnp_out_args func) /\
Forall2 (fun arg decl =>
           lookup (annotations func) (fst decl)
           = Some (data_type_python (related_state_variable arg)))
        (in_arguments act) (upnp_in_args func).
Proof.
unfold _init_action.
destruct (build_in_arguments _ _ _ _) as [exc|ins] eqn:Ei; [discriminate|].
destruct (build_out_arguments _ _) as [exc|outs] eqn:Eo; [discriminate|].
intros H; inversion H; subst. clear H.
destruct (build_in_arguments_shape _ _ _ Ei) as [Hin Hann].
pose proof (build_out_arguments_shape _ _ Eo) as Hout.
assert (Eins : in_arguments
                 (mkAction (upnp_action_name func) (ins ++ outs)
                           (client_validate (ins ++ outs)) (call func)) = ins).
{ unfold in_arguments. cbn [arguments]. rewrite filter_app.
  rewrite filter_all, filter_nothing, app_nil_r; [reflexivity| |].
  - eapply Forall_impl; [|exact (built_direction _ _ _ Hout)].
    intros a ->. reflexivity.
  - eapply Forall_impl; [|exact (built_direction _ _ _ Hin)].
    intros a ->. reflexivity. }
assert (Eouts : out_arguments
                  (mkAction (upnp_action_name func) (ins ++ outs)
                            (client_validate (ins ++ outs)) (call func)) = outs).
{ unfold out_arguments. cbn [arguments]. rewrite filter_app.
  rewrite filter_nothing, filter_all; [reflexivity| |].
  - eapply Forall_impl; [|exact (built_direction _ _ _ Hout)].
    intros a ->. reflexivity.
  - eapply Forall_impl; [|exact (built_direction _ _ _ Hin)].
    intros a ->. reflexivity. }
rewrite Eins, Eouts.
repeat split; try assumption.
- rewrite action_is_lookup. apply lookup_store_same.
- intros other Hne. rewrite !action_is_lookup. now apply lookup_store_other.
Qed.

(** X13: when [_init_action] succeeds, the action is registered under its
  name with the decorated method as handler and leaves the other actions
  alone.  Its arguments are the declared in-arguments followed by the
  declared out-arguments, each in declaration order and each bound to the
  state variable registered under the declared name, and every in-argument
  has a parameter annotation equal to the host type of its state
  variable. *)
Theorem init_action_binds_declared_arguments service_actions func actions' act :
_init_action data_type_python client_validate state_variables service_actions func
= inr (actions', act) ->
action actions' (upnp_action_name func) = Some act /\
(forall other, other <> upnp_action_name func ->
               action actions' other = action service_actions other) /\
action_name act = upnp_action_name func /\
async_handle act = call func /\
arguments act = in_arguments act ++ out_arguments act /\
Forall2 (built_for state_variables In_) (in_arguments act) (upnp_in_args func) /\
Forall2 (built_for state_variables Out_) (out_arguments act) (upnp_out_args func) /\
Forall2 (fun arg decl =>
           lookup (annotations func) (fst decl)
           = Some (data_type_python (related_state_variable arg)))
        (in_arguments act) (upnp_in_args func).
Proof. apply init_action_shape. Qed.

(** X14: an action bound by [_init_action] is described and dispatched as
  declared: its description lists the arguments in declaration order, with
  no reordering, and the dispatcher accepts a child of the request element
  as an in-argument exactly when its tag is a declared in-argument name. *)
Theorem bound_action_accepts_declared_in_arguments service_actions func actions' act :
_init_action data_type_python client_validate state_variables service_actions func
= inr (actions', act) ->
argument_rows (_action_to_xml act) = map argument_row (arguments act) /\
(forall k, (exists arg, argument act k In_ = Some arg)
           <-> In k (map fst (upnp_in_args func))) /\
(forall el rest kwargs,
    ~ In (tag el) (map fst (upnp_in_args func)) ->
    parse_arguments act (el :: rest) kwargs = inl (HTTPBadRequest "InvalidActionArgument")).
Proof.
intros H.
destruct (init_action_shape _ _ _ _ H)
  as [_ [_ [_ [_ [Hargs [Hin [Hout _]]]]]]].
assert (Hiff : forall k, (exists arg, argument act k In_ = Some arg)
                         <-> In k (map fst (upnp_in_args func))).
{ intros k. rewrite <- (built_names _ _ _ Hin). split.
  - intros [arg Ha]. apply argument_found in Ha. destruct Ha as [Ha [Hn Hd]].
    rewrite Hargs in Ha. apply in_app_or in Ha. destruct Ha as [Ha|Ha].
    + rewrite <- Hn. now apply in_map.
    + pose proof (proj1 (Forall_forall _ _) (built_direction _ _ _ Hout) arg Ha).
      congruence.
  - intros Hk. apply in_map_iff in Hk. destruct Hk as [arg [Hn Ha]].
    unfold argument.
    destruct (find _ (arguments act)) as [found|] eqn:Ef; [now exists found|].
    exfalso.
    assert (Hall : In arg (arguments act)).
    { rewrite Hargs. apply in_or_app. now left. }
    pose proof (find_none _ _ Ef arg Hall) as Hf. cbn beta in Hf.
    pose proof (proj1 (Forall_forall _ _) (built_direction _ _ _ Hin) arg Ha) as Hd.
    rewrite Hn, Hd, String.eqb_refl in Hf. discriminate. }
split; [|split].
- rewrite action_xml_rows, <- Hargs. reflexivity.
- exact Hiff.
- intros el rest kwargs Hn. cbn [parse_arguments].
  destruct (argument act (tag el) In_) as [arg|] eqn:Ea; [|reflexivity].
  elim Hn. apply Hiff. now exists arg.
Qed.

End BindingFacts.

Lemma init_action_binds_declared_arguments_witness :
  exists actions' act,
    _init_action sample_python_type (fun _ => no_validation) sample_state_variables
                 (actions sample_server_service) sample_function
    = inr (actions', act) /\
    action actions' "SetLevel" = Some act /\
    map arg_name (arguments act) = ["NewLevel"; "OldLevel"; "Status"].
Proof.
  eexists. eexists. split; [reflexivity|].
  split; [|reflexivity].
  exact (proj1 (init_action_binds_declared_arguments sample_python_type
                  (fun _ => no_validation) sample_state_variables
                  (actions sample_server_service) sample_function _ _ eq_refl)).
Defined.

Lemma bound_action_accepts_declared_in_arguments_witness :
  exists act,
    argument_rows (_action_to_xml act)
    = [ [Some "NewLevel"; Some "in"; Some "Level"];
        [Some "OldLevel"; Some "out"; Some "Level"];
        [Some "Status"; Some "out"; Some "Target"] ] /\
    parse_arguments act [leaf "OldLevel" "1"] []
    = inl (HTTPBadRequest "InvalidActionArgument").
Proof.
  eexists. split.
  - rewrite (proj1 (bound_action_accepts_declared_in_arguments sample_python_type
                      (fun _ => no_validation) sample_state_variables
                      (actions sample_server_service) sample_function _ _ eq_refl)).
    reflexivity.
  - reflexivity.
Defined.

(** ** The success response *)

Lemma action_response_element service name result :
  exists envelope_el,
    body (_create_action_response service name result) = Some envelope_el /\
    find_path envelope_el ["s:Body"; ("st:" ++ name ++ "Response")%string]
    = Some (mkElement ("st:" ++ name ++ "Response")%string
                      [("xmlns:st", server_service_type service)] None
                      (map (fun kv => leaf (fst kv) (upnp_value (snd kv))) result)).
Proof.
  eexists. split; [reflexivity|].
  cbn [find_path find_child children find tag String.eqb Ascii.eqb Bool.eqb].
  unfold find_child. cbn [children find tag]. rewrite String.eqb_refl. reflexivity.
Qed.

(** X15: a response with status 200 from [action_handler] answers the
    action named after the [#] of the SOAPAction header: its body holds the
    element [st:<name>Response] in the namespace of the service type, whose
    children are the out-arguments the handler returned, in the handler's
    order, each with the rendered value of its state variable. *)
Theorem success_response_names_action service request r calls :
  action_handler service request = (inr r, calls) ->
  status r = 200%Z ->
  exists prefix name kwargs act result envelope_el response_el,
    Text.split "#" (soap_action_of request) = [prefix; name] /\
    action (actions service) name = Some act /\
    calls = [(name, kwargs)] /\
    async_handle act kwargs = inr result /\
    body r = Some envelope_el /\
    find_path envelope_el ["s:Body"; ("st:" ++ name ++ "Response")%string]
    = Some response_el /\
    attrib response_el = [("xmlns:st", server_service_type service)] /\
    map tag (children response_el) = map fst result /\
    map text (children response_el) = map (fun kv => Some (upnp_value (snd kv))) result.
Proof.
  unfold action_handler, async_handle_action.
  destruct (_parse_action_body service request) as [exc|[name kwargs]] eqn:Ep;
    [discriminate|].
  destruct (parse_success_is_soap_call _ _ _ _ Ep)
    as [rpc_el [act [[prefix [root_el [body_el [rest [Hsplit _]]]]] [Ha _]]]].
  rewrite Ha.
  destruct (validate_arguments act kwargs) as [exc|].
  { destruct exc; intros H; inversion H; subst; discriminate. }
  destruct (async_handle act kwargs) as [exc|result] eqn:Eh.
  { destruct exc; intros H; inversion H; subst; discriminate. }
  intros H _. inversion H; subst. clear H.
  destruct (action_response_element service name result) as [envelope_el [Hb Hf]].
  exists prefix, name, kwargs, act, result, envelope_el. eexists.
  repeat split; try eassumption; try reflexivity.
  - cbn [children]. rewrite map_map. reflexivity.
  - cbn [children]. rewrite map_map. reflexivity.
Qed.

Lemma success_response_names_action_witness :
  exists prefix name,
    Text.split "#" (soap_action_of (sample_request "SetTarget" [leaf "NewTargetValue" "1"]))
    = [prefix; name] /\
    name = "SetTarget".
Proof.
  destruct (success_response_names_action sample_server_service
              (sample_request "SetTarget" [leaf "NewTargetValue" "1"]) _ _ eq_refl eq_refl)
    as [prefix [name [kwargs [act [result [env [el [Hs [_ [Hc _]]]]]]]]]].
  exists prefix, name. split; [exact Hs|].
  inversion Hc. reflexivity.
Defined.

(** ** The HTTP routes *)



Section RouteFacts.

Variable describe : UpnpDevice -> DeviceDescription.
Variable urls : UpnpService -> ServiceUrls.



End RouteFacts.

Example sample_routes :
  map (fun r => (route_method r, route_path r)) (server_routes sample_urls sample_child)
  = [ ("GET", "/device.xml"); ("GET", "/scpd.xml"); ("POST", "/control");
      ("SUBSCRIBE", "/event") ].
Proof. reflexivity. Qed.
